(** * Duck Machine DM2020W CPU (cpu.py): ALU, fetch/decode/execute step, run loop

    A shallow embedding of [cpu.py].  Python integers are unbounded, so
    machine words are [Z].  Exceptions are explicit: pure code returns a
    [pyresult], and the methods of [CPU], which mutate the object, live in
    a state-and-exception monad whose state survives a raise (the object
    keeps whatever was written before the exception left the method). *)

From Stdlib Require Import ZArith List Bool Lia.
From stdpp Require Import base list.
Import ListNotations.
Local Open Scope Z_scope.

(** ** Exceptions and results *)

(** The exceptions that can leave the code of [cpu.py]: [ZeroDivisionError]
    from [//], [KeyError] from the lookup in [ALU_OPS], [IndexError] from
    indexing the register list, and the errors of the two collaborators. *)
Inductive exn : Type :=
  | ZeroDivisionError
  | KeyError
  | IndexError
  | AddressError
  | DecodeError.

Inductive pyresult (A : Type) : Type :=
  | Ok (a : A)
  | Raise (e : exn).
Arguments Ok {A} a.
Arguments Raise {A} e.

(** ** instr_format: CondFlag, OpCode, Instruction *)

(** Modelled from the spec: [CondFlag] of instr_format.py, which is not part
    of the sources at hand.  A flag value is a bit mask read through
    [.value]; Z, M, P and V are single flags and ALWAYS is the
    always-execute mask.  The one bit of each flag is a choice of this
    model (M, Z, P, V from the lowest bit up, ALWAYS their union); the
    theorems use that the four flags differ, and nothing else of the bits. *)
Record CondFlag : Type := mkCondFlag { value : Z }.

Module CondFlagEnum.
Definition M : CondFlag := mkCondFlag 1.
Definition Z : CondFlag := mkCondFlag 2.
Definition P : CondFlag := mkCondFlag 4.
Definition V : CondFlag := mkCondFlag 8.
Definition ALWAYS : CondFlag := mkCondFlag 15.
End CondFlagEnum.

(** Modelled from the spec: [OpCode] of instr_format.py.  The seven codes
    that [cpu.py] names, and [OTHER n] for any further member of the
    enumeration (the spec lists the codes with an open end). *)
Inductive OpCode : Type :=
  | HALT
  | LOAD
  | STORE
  | ADD
  | SUB
  | MUL
  | DIV
  | OTHER (code : Z).

(** Modelled from the spec: [Instruction] of instr_format.py, an immutable
    value with the six fields [step] reads. *)
Record Instruction : Type := mkInstruction {
  op : OpCode;
  cond : CondFlag;
  reg_target : Z;
  reg_src1 : Z;
  reg_src2 : Z;
  offset : Z
}.

(** ** class ALU *)

Module ALU.

(** [x // y]: floor division, raising on a zero divisor. *)
Definition floordiv (x y : Z) : pyresult Z :=
  if y =? 0 then Raise ZeroDivisionError else Ok (x / y).

(** The dictionary [ALU.ALU_OPS]; [None] is a missing key. *)
Definition ALU_OPS (o : OpCode) : option (Z -> Z -> pyresult Z) :=
  match o with
  | ADD => Some (fun x y => Ok (x + y))
  | SUB => Some (fun x y => Ok (x - y))
  | MUL => Some (fun x y => Ok (x * y))
  | DIV => Some (fun x y => floordiv x y)
  | LOAD => Some (fun x y => Ok (x + y))
  | STORE => Some (fun x y => Ok (x + y))
  | HALT => Some (fun _ _ => Ok 0)
  | OTHER _ => None
  end.

(** [ALU.exec]: the [try] block catches [ZeroDivisionError] only; a
    [KeyError] of the lookup leaves the method. *)
Definition exec (o : OpCode) (in1 in2 : Z) : pyresult (Z * CondFlag) :=
  match ALU_OPS o with
  | None => Raise KeyError
  | Some fn =>
      match fn in1 in2 with
      | Ok result =>
          if result =? 0 then Ok (result, CondFlagEnum.Z)
          else if result <? 0 then Ok (result, CondFlagEnum.M)
          else Ok (result, CondFlagEnum.P)
      | Raise ZeroDivisionError => Ok (0, CondFlagEnum.V)
      | Raise e => Raise e
      end
  end.

End ALU.

(** The flag [ALU.exec] attaches to a computed [result], as a function of
    its sign. *)
Definition flag_of (result : Z) : CondFlag :=
  if result =? 0 then CondFlagEnum.Z
  else if result <? 0 then CondFlagEnum.M
  else CondFlagEnum.P.

(** ** register: Register, ZeroRegister *)

(** Modelled from the spec: the classes [Register] and [ZeroRegister] of
    register.py.  A register holds one word, 0 at first; [get] returns it
    and [put] overwrites it.  The zero register always reads 0 and accepts
    a [put] without effect. *)
Inductive Register : Type :=
  | Reg (v : Z)
  | ZeroReg.

Definition Register_get (r : Register) : Z :=
  match r with
  | Reg v => v
  | ZeroReg => 0
  end.

Definition Register_put (r : Register) (v : Z) : Register :=
  match r with
  | Reg _ => Reg v
  | ZeroReg => ZeroReg
  end.

(** Python list indexing [l[i]]: [0 <= i < len] counts from the front,
    [-len <= i < 0] from the back, anything else is an [IndexError]
    ([None] here). *)
Definition list_slot (len : nat) (i : Z) : option nat :=
  if (0 <=? i) && (i <? Z.of_nat len) then Some (Z.to_nat i)
  else if (- Z.of_nat len <=? i) && (i <? 0) then Some (Z.to_nat (Z.of_nat len + i))
  else None.

(** [registers[i].get()] *)
Definition read_register (rs : list Register) (i : Z) : pyresult Z :=
  match list_slot (length rs) i with
  | Some k =>
      match rs !! k with
      | Some r => Ok (Register_get r)
      | None => Raise IndexError
      end
  | None => Raise IndexError
  end.

(** [registers[i].put(v)]: the register object in slot [i] is mutated in
    place; the list keeps its length. *)
Definition write_register (rs : list Register) (i : Z) (v : Z)
  : pyresult (list Register) :=
  match list_slot (length rs) i with
  | Some k =>
      match rs !! k with
      | Some r => Ok (<[k := Register_put r v]> rs)
      | None => Raise IndexError
      end
  | None => Raise IndexError
  end.

(** ** memory: the Memory collaborator *)

(** Modelled from the spec: class [Memory] of memory.py, a store of words
    with a one-argument [get] and a two-argument [put], both of which may
    fail.  [Memory_put m a b] is the call [m.put(a, b)], arguments in
    call order; the spec gives the method as [put(value, address)]. *)
Class Memory (Mem : Type) : Type := {
  Memory_get : Mem -> Z -> pyresult Z;
  Memory_put : Mem -> Z -> Z -> pyresult Mem
}.

(** ** class CPU *)

(** The attributes of a [CPU] object.  [self.alu] is stateless and
    [self.pc] is the very object in [self.registers[15]], so a [put] on
    either name is a write to slot 15 of [registers]. *)
Record CPU (Mem : Type) : Type := mkCPU {
  memory : Mem;
  registers : list Register;
  condition : CondFlag;
  halted : bool
}.
Arguments mkCPU {Mem} _ _ _ _.
Arguments memory {Mem} _.
Arguments registers {Mem} _.
Arguments condition {Mem} _.
Arguments halted {Mem} _.

(** [CPU.__init__] *)
Definition CPU_init {Mem : Type} (m : Mem) : CPU Mem :=
  mkCPU m (ZeroReg :: replicate 15 (Reg 0)) CondFlagEnum.ALWAYS false.

(** Methods mutate the object and may raise: a computation takes the
    object's state and returns a result or an exception together with the
    state as the writes so far left it. *)
Definition Exec (St A : Type) : Type := St -> pyresult A * St.

Definition ret {St A : Type} (a : A) : Exec St A := fun s => (Ok a, s).

Definition bind {St A B : Type} (m : Exec St A) (k : A -> Exec St B)
  : Exec St B :=
  fun s =>
    match m s with
    | (Ok a, s') => k a s'
    | (Raise e, s') => (Raise e, s')
    end.

Definition lift {St A : Type} (r : pyresult A) : Exec St A := fun s => (r, s).

Declare Scope exec_scope.
Delimit Scope exec_scope with exec.
Notation "x <- m ;; k" := (bind m (fun x => k))
  (at level 100, m at next level, right associativity) : exec_scope.
Notation "m ;; k" := (bind m (fun _ => k))
  (at level 100, right associativity) : exec_scope.

Section Machine.
Context {Mem : Type} `{Memory Mem}.

(** [decode] of instr_format.py, taken as given: a pure function from a
    word to an instruction, which may fail. *)
Variable decode : Z -> pyresult Instruction.

Local Open Scope exec_scope.

(** [self.registers[i].get()] *)
Definition registers_get (i : Z) : Exec (CPU Mem) Z :=
  fun s => (read_register (registers s) i, s).

(** [self.registers[i].put(v)] *)
Definition registers_put (i : Z) (v : Z) : Exec (CPU Mem) unit :=
  fun s =>
    match write_register (registers s) i v with
    | Ok rs => (Ok tt, mkCPU (memory s) rs (condition s) (halted s))
    | Raise e => (Raise e, s)
    end.

(** [self.pc.get()] and [self.pc.put(v)] *)
Definition pc_get : Exec (CPU Mem) Z := registers_get 15.
Definition pc_put (v : Z) : Exec (CPU Mem) unit := registers_put 15 v.

(** [self.memory.get(a)] *)
Definition memory_get (a : Z) : Exec (CPU Mem) Z :=
  fun s => (Memory_get (memory s) a, s).

(** [self.memory.put(a, b)] *)
Definition memory_put (a b : Z) : Exec (CPU Mem) unit :=
  fun s =>
    match Memory_put (memory s) a b with
    | Ok m => (Ok tt, mkCPU m (registers s) (condition s) (halted s))
    | Raise e => (Raise e, s)
    end.

Definition get_condition : Exec (CPU Mem) CondFlag :=
  fun s => (Ok (condition s), s).

(** [self.condition = flag] *)
Definition set_condition (flag : CondFlag) : Exec (CPU Mem) unit :=
  fun s => (Ok tt, mkCPU (memory s) (registers s) flag (halted s)).

(** [self.halted = b] *)
Definition set_halted (b : bool) : Exec (CPU Mem) unit :=
  fun s => (Ok tt, mkCPU (memory s) (registers s) (condition s) b).

(** [CPU.step].  [notify_all] hands the decoded instruction to the
    observers and writes nothing of the CPU; it is left out.  The
    [if]/[elif] chain on [instr.op] has no [else]: any other code falls
    through. *)
Definition step : Exec (CPU Mem) unit :=
  address <- registers_get 15 ;;
  result <- memory_get address ;;
  instr <- lift (decode result) ;;
  current <- get_condition ;;
  if Z.land (value (cond instr)) (value current) >? 0 then
    left <- registers_get (reg_src1 instr) ;;
    src2 <- registers_get (reg_src2 instr) ;;
    let right := src2 + offset instr in
    prog <- pc_get ;;
    pc_put (prog + 1) ;;
    computed <- lift (ALU.exec (op instr) left right) ;;
    let '(value, flag) := computed in
    match op instr with
    | ADD | SUB | MUL | DIV =>
        registers_put (reg_target instr) value ;;
        set_condition flag
    | STORE =>
        target <- registers_get (reg_target instr) ;;
        memory_put value target ;;
        set_condition flag
    | LOAD =>
        get <- memory_get value ;;
        registers_put (reg_target instr) get ;;
        set_condition flag
    | HALT => set_halted true
    | OTHER _ => ret tt
    end
  else
    prog1 <- registers_get 15 ;;
    registers_put 15 (prog1 + 1).

(** The part of [step] from the call of [ALU.exec] to the end of the
    [if]/[elif] chain, as a computation of its own: what an executed
    instruction does once the operands are read and the PC is advanced. *)
Definition from_ALU (instr : Instruction) (left right : Z)
  : Exec (CPU Mem) unit :=
  computed <- lift (ALU.exec (op instr) left right) ;;
  let '(value, flag) := computed in
  match op instr with
  | ADD | SUB | MUL | DIV =>
      registers_put (reg_target instr) value ;;
      set_condition flag
  | STORE =>
      target <- registers_get (reg_target instr) ;;
      memory_put value target ;;
      set_condition flag
  | LOAD =>
      get <- memory_get value ;;
      registers_put (reg_target instr) get ;;
      set_condition flag
  | HALT => set_halted true
  | OTHER _ => ret tt
  end.

(** How a call of [run] can end: it returns (with the final value of
    [step_count]), an exception leaves it, or the loop is still running
    when the step budget of the model is used up. *)
Inductive outcome : Type :=
  | Returned (s : CPU Mem) (step_count : Z)
  | Raised (e : exn) (s : CPU Mem)
  | OutOfFuel (s : CPU Mem).

(** The loop [while not self.halted] of [run]; [fuel] bounds the number
    of calls of [step].  The prompt of single-step mode reads the
    keyboard and touches nothing of the CPU; it is left out. *)
Fixpoint while_not_halted (fuel : nat) (s : CPU Mem) (step_count : Z)
  : outcome :=
  if halted s then Returned s step_count
  else
    match fuel with
    | O => OutOfFuel s
    | S fuel' =>
        match step s with
        | (Ok _, s') => while_not_halted fuel' s' (step_count + 1)
        | (Raise e, s') => Raised e s'
        end
    end.

(** [CPU.run], for any choice of [single_step] *)
Definition run (from_addr : Z) (fuel : nat) (s : CPU Mem) : outcome :=
  match (set_halted false ;; pc_put from_addr) s with
  | (Ok _, s') => while_not_halted fuel s' 0
  | (Raise e, s') => Raised e s'
  end.

End Machine.

Arguments Returned {Mem} s step_count.
Arguments Raised {Mem} e s.
Arguments OutOfFuel {Mem} s.

(** ** The register file [__init__] builds *)

Definition is_plain (r : Register) : bool :=
  match r with
  | Reg _ => true
  | ZeroReg => false
  end.

(** Sixteen registers, a [ZeroRegister] in slot 0 and plain [Register]s in
    slots 1 to 15: the shape [__init__] sets up and no method changes. *)
Definition wf_registers (rs : list Register) : bool :=
  match rs with
  | ZeroReg :: rest => (length rest =? 15)%nat && forallb is_plain rest
  | _ => false
  end.

(** Slot [k] of the register file is the one the index [i] selects. *)
Definition selects (i : Z) (k : nat) : Prop := list_slot 16 i = Some k.

(** The state once [self.pc.put(prog + 1)] has run in a well-formed
    machine whose PC held [address]. *)
Definition advance {Mem : Type} (s : CPU Mem) (address : Z) : CPU Mem :=
  mkCPU (memory s) (<[15%nat := Reg (address + 1)]> (registers s))
        (condition s) (halted s).

(** The instruction at the PC: fetch and decode of [step] both succeed,
    reading [word] at [address] and decoding it to [instr]. *)
Definition fetches {Mem : Type} `{Memory Mem}
    (decode : Z -> pyresult Instruction) (s : CPU Mem)
    (address word : Z) (instr : Instruction) : Prop :=
  read_register (registers s) 15 = Ok address /\
  Memory_get (memory s) address = Ok word /\
  decode word = Ok instr.

(** The condition test of [step] passes. *)
Definition satisfied {Mem : Type} (s : CPU Mem) (instr : Instruction) : Prop :=
  Z.land (value (cond instr)) (value (condition s)) > 0.

(** The operation selected by [o] is in the table and returns [result] on
    the operands [x] and [y] without raising. *)
Definition op_succeeds (o : OpCode) (x y result : Z) : Prop :=
  exists fn, ALU.ALU_OPS o = Some fn /\ fn x y = Ok result.

(** A computation keeps a property of the state, however it ends. *)
Definition preserves {St A : Type} (P : St -> Prop) (m : Exec St A) : Prop :=
  forall s r s', P s -> m s = (r, s') -> P s'.

(** The register file of the machine has the shape [__init__] gave it. *)
Definition wf_state {Mem : Type} (s : CPU Mem) : Prop :=
  wf_registers (registers s) = true.

(** The loop of [run] would go on from this state. *)
Definition running {Mem : Type} (s : CPU Mem) : Prop := halted s = false.

(** The state a HALT executed at [address] leaves. *)
Definition halted_at {Mem : Type} (s : CPU Mem) (address : Z) : CPU Mem :=
  mkCPU (memory s) (registers (advance s address)) (condition s) true.

(** ** Concrete collaborators, to run the machine on examples *)

Module Demo.

(** Modelled from the spec: the memory collaborator, a flat store of
    words addressed by index from 0, with [get(address)] and
    [put(value, address)]; both fail for an address that is negative or
    beyond the size of the memory. *)
Record WordArray : Type := mkWordArray { words : list Z }.

Definition in_range (m : WordArray) (a : Z) : bool :=
  (0 <=? a) && (a <? Z.of_nat (length (words m))).

Definition WordArray_get (m : WordArray) (a : Z) : pyresult Z :=
  if in_range m a then
    match words m !! Z.to_nat a with
    | Some w => Ok w
    | None => Raise AddressError
    end
  else Raise AddressError.

Definition WordArray_put (m : WordArray) (v a : Z) : pyresult WordArray :=
  if in_range m a then Ok (mkWordArray (<[Z.to_nat a := v]> (words m)))
  else Raise AddressError.

#[global] Instance WordArray_Memory : Memory WordArray :=
  {| Memory_get := WordArray_get; Memory_put := WordArray_put |}.

(** A decoder over a word of bit fields: operation in bits 26 and up,
    then four bits each for condition, target, source 1 and source 2,
    and a signed ten-bit offset in the low bits. *)
Definition opcode_of (n : Z) : OpCode :=
  match n with
  | 0 => HALT
  | 1 => LOAD
  | 2 => STORE
  | 3 => ADD
  | 5 => SUB
  | 6 => MUL
  | 7 => DIV
  | _ => OTHER n
  end.

Definition field (w : Z) (from width : Z) : Z :=
  Z.land (Z.shiftr w from) (Z.ones width).

Definition signed10 (n : Z) : Z := if n <? 512 then n else n - 1024.

Definition decode (w : Z) : pyresult Instruction :=
  if (0 <=? w) && (w <? 2 ^ 31) then
    Ok (mkInstruction (opcode_of (field w 26 5))
                      (mkCondFlag (field w 22 4))
                      (field w 18 4) (field w 14 4) (field w 10 4)
                      (signed10 (field w 0 10)))
  else Raise DecodeError.

Definition opcode_number (o : OpCode) : Z :=
  match o with
  | HALT => 0
  | LOAD => 1
  | STORE => 2
  | ADD => 3
  | SUB => 5
  | MUL => 6
  | DIV => 7
  | OTHER n => n
  end.

Definition encode (i : Instruction) : Z :=
  Z.lor (Z.shiftl (opcode_number (op i)) 26)
    (Z.lor (Z.shiftl (value (cond i)) 22)
      (Z.lor (Z.shiftl (reg_target i) 18)
        (Z.lor (Z.shiftl (reg_src1 i) 14)
          (Z.lor (Z.shiftl (reg_src2 i) 10)
                 (Z.land (offset i) 1023))))).

Definition always (o : OpCode) (target src1 src2 off : Z) : Instruction :=
  mkInstruction o CondFlagEnum.ALWAYS target src1 src2 off.

(** A register file with the given contents of r1, r2, r3 and the PC. *)
Definition regs (r1 r2 r3 pc : Z) : list Register :=
  [ZeroReg; Reg r1; Reg r2; Reg r3] ++ replicate 11 (Reg 0) ++ [Reg pc].

(** A machine in its initial condition state with program and data in
    one memory. *)
Definition machine (program : list Instruction) (data : list Z)
    (r1 r2 r3 pc : Z) : CPU WordArray :=
  mkCPU (mkWordArray (map encode program ++ data)) (regs r1 r2 r3 pc)
        CondFlagEnum.ALWAYS false.

(** ADD r1, r0, r0[5]; HALT *)
Definition add_then_halt : CPU WordArray :=
  machine [always ADD 1 0 0 5; always HALT 0 0 0 0] [] 0 0 0 0.

(** STORE r1, r2, r3[1] with r1 = 77, r2 = 2, r3 = 1: the ALU gives 4. *)
Definition store_r1 : CPU WordArray :=
  machine [always STORE 1 2 3 1] [0; 0; 0; 0; 0] 77 2 1 0.

(** An instruction that asks for M while the current flag is P. *)
Definition skipped_add : CPU WordArray :=
  mkCPU (mkWordArray [encode (mkInstruction ADD CondFlagEnum.M 1 0 0 5)])
        (regs 7 8 9 0) CondFlagEnum.P false.

(** ADD r15, r2, r0[3] at address 0 with r2 = 4: a jump to 7. *)
Definition jump : CPU WordArray :=
  machine [always ADD 15 2 0 3] [] 0 4 0 0.

(** HALT at address 2, with the PC on it. *)
Definition at_halt : CPU WordArray :=
  machine [always ADD 1 0 0 5; always ADD 1 0 0 5; always HALT 0 0 0 0] []
          1 2 3 2.

(** Operation number 9 is in no table. *)
Definition unsupported : CPU WordArray :=
  machine [always (OTHER 9) 1 2 3 0] [] 1 2 3 0.

(** SUB r0, r1, r2[0] with r1 = 3, r2 = 5: result -2, target r0. *)
Definition sub_to_r0 : CPU WordArray :=
  machine [always SUB 0 1 2 0] [] 3 5 0 0.

End Demo.

(** The state of the [CPU] object when a call of [run] has ended. *)
Definition outcome_state {Mem : Type} (o : outcome (Mem := Mem)) : CPU Mem :=
  match o with
  | Returned s _ => s
  | Raised _ s => s
  | OutOfFuel s => s
  end.

(** The state in which [run] enters its loop: halted flag cleared and
    the PC set, in a well-formed machine. *)
Definition entered {Mem : Type} (s : CPU Mem) (from_addr : Z) : CPU Mem :=
  mkCPU (memory s) (<[15%nat := Reg from_addr]> (registers s))
        (condition s) false.

(** The four flags [ALU.exec] can return. *)
Definition result_flags : list CondFlag :=
  [CondFlagEnum.Z; CondFlagEnum.M; CondFlagEnum.P; CondFlagEnum.V].

(** An index that [registers[i]] accepts for a list of sixteen. *)
Definition register_index (i : Z) : Prop := -16 <= i < 16.

(** Further machines to run. *)
Module Cases.

(** A decoder that answers every word with the same instruction; it lets
    an instruction carry register numbers no four-bit field holds. *)
Definition fixed_decode (i : Instruction) (w : Z) : pyresult Instruction :=
  Ok i.

(** LOAD r2, r0, r0[3] with 99 at address 3. *)
Definition load_r2 : CPU Demo.WordArray :=
  Demo.machine [Demo.always LOAD 2 0 0 3] [0; 0; 99] 0 0 0 0.

(** DIV r1, r2, r0[0] with r1 = 5 and r2 = 7. *)
Definition div_zero : CPU Demo.WordArray :=
  Demo.machine [Demo.always DIV 1 2 0 0] [] 5 7 0 0.

(** The PC points past the end of the memory. *)
Definition pc_outside : CPU Demo.WordArray :=
  Demo.machine [Demo.always HALT 0 0 0 0] [] 0 0 0 50.

(** STORE r1, r0, r0[100] and LOAD r1, r0, r0[100] in a memory of two
    words. *)
Definition store_outside : CPU Demo.WordArray :=
  Demo.machine [Demo.always STORE 1 0 0 100; Demo.always LOAD 1 0 0 100] []
               8 0 0 0.

Definition load_outside : CPU Demo.WordArray :=
  Demo.machine [Demo.always STORE 1 0 0 100; Demo.always LOAD 1 0 0 100] []
               8 0 0 1.

(** STORE r15, r0, r0[2] at address 1. *)
Definition store_pc : CPU Demo.WordArray :=
  Demo.machine [Demo.always HALT 0 0 0 0; Demo.always STORE 15 0 0 2] [0]
               0 0 0 1.

(** ADD r15, r15, r0[3] at address 1. *)
Definition relative_jump : CPU Demo.WordArray :=
  Demo.machine [Demo.always HALT 0 0 0 0; Demo.always ADD 15 15 0 3] []
               0 0 0 1.

(** ADD r15, r15, r0[0] at address 0, the flag Z being current. *)
Definition self_jump : CPU Demo.WordArray :=
  mkCPU (Demo.mkWordArray [Demo.encode (Demo.always ADD 15 15 0 0)])
        (Demo.regs 0 0 0 0) CondFlagEnum.Z false.


(** ADD r1, r0, r0[5] with register numbers out of range. *)
Definition bad_source : Instruction := Demo.always ADD 1 16 0 5.
Definition bad_target : Instruction := Demo.always ADD 20 0 0 5.

End Cases.

(** ** Proof automation *)

Create HintDb preserves.

(** Unfold the primitive computations of the monad. *)
Ltac exec_unfold :=
  unfold pc_get, pc_put;
  unfold bind, registers_get, registers_put, memory_get, memory_put, lift,
    get_condition, set_condition, set_halted, ret.

Ltac exec_unfold_in H :=
  unfold pc_get, pc_put in H;
  unfold bind, registers_get, registers_put, memory_get, memory_put, lift,
    get_condition, set_condition, set_halted, ret in H.

(** Case analysis on the innermost scrutinee left in [H]. *)
Ltac case_step H :=
  repeat (cbv beta iota in H;
          match type of H with
          | context [match ?x with _ => _ end] =>
              lazymatch x with
              | context [match _ with _ => _ end] => fail
              | _ => destruct x eqn:?
              end
          end).

(** * Properties *)

(** ** Register file *)

Lemma CPU_init_wf {Mem : Type} (m : Mem) : wf_state (CPU_init m).
Proof. reflexivity. Qed.

Lemma wf_registers_shape (rs : list Register) :
  wf_registers rs = true ->
  length rs = 16%nat /\ rs !! 0%nat = Some ZeroReg /\
  forall k, (1 <= k < 16)%nat -> exists v, rs !! k = Some (Reg v).
Proof.
  destruct rs as [|[v|] rest]; simpl; try discriminate.
  intros Hwf. apply andb_true_iff in Hwf as [Hlen Hplain].
  apply Nat.eqb_eq in Hlen. split; [lia|]. split; [reflexivity|].
  intros k Hk. destruct k as [|k]; [lia|]. simpl.
  destruct (rest !! k) as [r|] eqn:Hr.
  - rewrite forallb_forall in Hplain.
    assert (Hin : In r rest) by (apply list_elem_of_In, list_elem_of_lookup; eauto).
    apply Hplain in Hin. destruct r; [eauto | discriminate].
  - apply lookup_ge_None in Hr. lia.
Qed.

Lemma list_slot_bound (len : nat) (i : Z) (k : nat) :
  list_slot len i = Some k -> (k < len)%nat.
Proof.
  unfold list_slot. intros Hs.
  destruct ((0 <=? i) && (i <? Z.of_nat len)) eqn:E1.
  - injection Hs as <-. apply andb_true_iff in E1 as [? ?]. lia.
  - destruct ((- Z.of_nat len <=? i) && (i <? 0)) eqn:E2; [|discriminate].
    injection Hs as <-. apply andb_true_iff in E2 as [? ?]. lia.
Qed.

Lemma wf_registers_insert (rs : list Register) (k : nat) (r : Register) (v : Z) :
  wf_registers rs = true -> rs !! k = Some r ->
  wf_registers (<[k := Register_put r v]> rs) = true.
Proof.
  destruct rs as [|[v0|] rest]; simpl; try discriminate.
  intros Hwf Hk. destruct k as [|k]; simpl in *.
  - injection Hk as <-. exact Hwf.
  - apply andb_true_iff in Hwf as [Hlen Hplain].
    apply andb_true_iff. split.
    + rewrite length_insert. exact Hlen.
    + rewrite forallb_forall in *. intros x Hx.
      apply list_elem_of_In, list_elem_of_lookup in Hx as [j Hj].
      destruct (decide (k = j)) as [->|Hne].
      * rewrite list_lookup_insert_eq in Hj by (eapply lookup_lt_Some; eauto).
        injection Hj as <-.
        assert (Hin : In r rest)
          by (apply list_elem_of_In, list_elem_of_lookup; eauto).
        apply Hplain in Hin. destruct r; [reflexivity | discriminate].
      * rewrite list_lookup_insert_ne in Hj by exact Hne.
        apply Hplain, list_elem_of_In, list_elem_of_lookup. eauto.
Qed.

Lemma write_register_wf (rs rs' : list Register) (i v : Z) :
  wf_registers rs = true -> write_register rs i v = Ok rs' ->
  wf_registers rs' = true.
Proof.
  unfold write_register. intros Hwf Hw.
  destruct (list_slot (length rs) i) as [k|]; [|discriminate].
  destruct (rs !! k) as [r|] eqn:Hr; [|discriminate].
  injection Hw as <-. eapply wf_registers_insert; eauto.
Qed.

Lemma read_register_pc (rs : list Register) :
  wf_registers rs = true ->
  exists a, rs !! 15%nat = Some (Reg a) /\ read_register rs 15 = Ok a.
Proof.
  intros Hwf. destruct (wf_registers_shape _ Hwf) as (Hlen & _ & Hplain).
  destruct (Hplain 15%nat ltac:(lia)) as [a Ha].
  exists a. split; [exact Ha|].
  unfold read_register. rewrite Hlen.
  change (list_slot 16 15) with (Some 15%nat). cbv beta iota.
  rewrite Ha. reflexivity.
Qed.

Lemma write_register_pc (rs : list Register) (v : Z) :
  wf_registers rs = true ->
  write_register rs 15 v = Ok (<[15%nat := Reg v]> rs).
Proof.
  intros Hwf. destruct (read_register_pc _ Hwf) as (a & Ha & _).
  destruct (wf_registers_shape _ Hwf) as (Hlen & _ & _).
  unfold write_register. rewrite Hlen.
  change (list_slot 16 15) with (Some 15%nat). cbv beta iota.
  rewrite Ha. reflexivity.
Qed.

Lemma insert_pc (rs : list Register) (v : Z) :
  wf_registers rs = true ->
  wf_registers (<[15%nat := Reg v]> rs) = true /\
  read_register (<[15%nat := Reg v]> rs) 15 = Ok v /\
  length (<[15%nat := Reg v]> rs) = length rs /\
  forall k, k <> 15%nat -> <[15%nat := Reg v]> rs !! k = rs !! k.
Proof.
  intros Hwf. destruct (read_register_pc _ Hwf) as (a & Ha & _).
  assert (Hwf' : wf_registers (<[15%nat := Reg v]> rs) = true)
    by exact (wf_registers_insert _ 15%nat (Reg a) v Hwf Ha).
  split; [exact Hwf'|]. split; [|split].
  - destruct (read_register_pc _ Hwf') as (a' & Ha' & Hr').
    rewrite Hr'. f_equal.
    rewrite list_lookup_insert_eq in Ha' by (eapply lookup_lt_Some; eauto).
    congruence.
  - apply length_insert.
  - intros k Hk. apply list_lookup_insert_ne. congruence.
Qed.

Lemma write_register_zero (rs : list Register) (v : Z) :
  wf_registers rs = true -> write_register rs 0 v = Ok rs.
Proof.
  intros Hwf. destruct (wf_registers_shape _ Hwf) as (Hlen & H0 & _).
  unfold write_register. rewrite Hlen.
  change (list_slot 16 0) with (Some 0%nat). cbv beta iota.
  rewrite H0. f_equal. apply list_insert_id. exact H0.
Qed.

Lemma read_register_zero (rs : list Register) :
  wf_registers rs = true -> read_register rs 0 = Ok 0.
Proof.
  intros Hwf. destruct (wf_registers_shape _ Hwf) as (Hlen & H0 & _).
  unfold read_register. rewrite Hlen.
  change (list_slot 16 0) with (Some 0%nat). cbv beta iota.
  rewrite H0. reflexivity.
Qed.

(** ** ALU *)

Lemma ALU_exec_flag_of (o : OpCode) (x y result : Z) :
  op_succeeds o x y result -> ALU.exec o x y = Ok (result, flag_of result).
Proof.
  intros (fn & Hfn & Hres). unfold ALU.exec, flag_of. rewrite Hfn, Hres.
  destruct (result =? 0); [reflexivity|]. destruct (result <? 0); reflexivity.
Qed.

Lemma op_succeeds_iff (o : OpCode) (x y : Z) :
  In o [ADD; SUB; MUL; DIV; LOAD; STORE] ->
  (exists result, op_succeeds o x y result) <-> ~ (o = DIV /\ y = 0).
Proof.
  intros Hin. split.
  - intros (result & fn & Hfn & Hres) [-> ->]. simpl in Hfn.
    injection Hfn as <-. unfold ALU.floordiv in Hres. discriminate.
  - intros Hnz. unfold op_succeeds.
    simpl in Hin.
    destruct Hin as [<-|[<-|[<-|[<-|[<-|[<-|[]]]]]]]; simpl; eauto.
    destruct (y =? 0) eqn:Hy.
    + apply Z.eqb_eq in Hy. tauto.
    + exists (x / y), ALU.floordiv. unfold ALU.floordiv. rewrite Hy. auto.
Qed.

Lemma flag_of_cases (result : Z) :
  (flag_of result = CondFlagEnum.Z <-> result = 0) /\
  (flag_of result = CondFlagEnum.M <-> result < 0) /\
  (flag_of result = CondFlagEnum.P <-> result > 0).
Proof.
  unfold flag_of.
  destruct (result =? 0) eqn:E0; [apply Z.eqb_eq in E0 | apply Z.eqb_neq in E0].
  - repeat split; intros; try lia; try discriminate; reflexivity.
  - destruct (result <? 0) eqn:E1; [apply Z.ltb_lt in E1 | apply Z.ltb_ge in E1];
      repeat split; intros; try lia; try discriminate; reflexivity.
Qed.

(** C2: for every operand [x], the ALU called with DIV, [x] and 0 returns
    the result 0 with the flag V; no exception leaves [exec]. *)
Theorem ALU_exec_DIV_by_zero (x : Z) :
  ALU.exec DIV x 0 = Ok (0, CondFlagEnum.V).
Proof. reflexivity. Qed.

(** C3: for ADD, SUB, MUL, DIV, LOAD and STORE and operands on which the
    operation succeeds, [exec] returns the result with a flag that is Z
    exactly when the result is 0, M exactly when it is negative and P
    exactly when it is positive; exactly one of the three holds. *)
Theorem ALU_exec_flag_by_sign (o : OpCode) (x y result : Z) :
  In o [ADD; SUB; MUL; DIV; LOAD; STORE] ->
  op_succeeds o x y result ->
  exists flag,
    ALU.exec o x y = Ok (result, flag) /\
    (flag = CondFlagEnum.Z <-> result = 0) /\
    (flag = CondFlagEnum.M <-> result < 0) /\
    (flag = CondFlagEnum.P <-> result > 0) /\
    (flag = CondFlagEnum.Z \/ flag = CondFlagEnum.M \/ flag = CondFlagEnum.P) /\
    ~ (flag = CondFlagEnum.Z /\ flag = CondFlagEnum.M) /\
    ~ (flag = CondFlagEnum.Z /\ flag = CondFlagEnum.P) /\
    ~ (flag = CondFlagEnum.M /\ flag = CondFlagEnum.P).
Proof.
  intros _ Hok. exists (flag_of result).
  split; [apply ALU_exec_flag_of; exact Hok|].
  destruct (flag_of_cases result) as (HZ & HM & HP).
  repeat split; try tauto; try lia.
  - unfold flag_of. destruct (result =? 0); [tauto|].
    destruct (result <? 0); tauto.
  - intros [E1 E2]; rewrite E1 in E2; discriminate.
  - intros [E1 E2]; rewrite E1 in E2; discriminate.
  - intros [E1 E2]; rewrite E1 in E2; discriminate.
Qed.

Lemma ALU_exec_flag_by_sign_witness :
  exists flag,
    ALU.exec DIV (-7) 2 = Ok (-4, flag) /\
    (flag = CondFlagEnum.Z <-> -4 = 0) /\
    (flag = CondFlagEnum.M <-> -4 < 0) /\
    (flag = CondFlagEnum.P <-> -4 > 0) /\
    (flag = CondFlagEnum.Z \/ flag = CondFlagEnum.M \/ flag = CondFlagEnum.P) /\
    ~ (flag = CondFlagEnum.Z /\ flag = CondFlagEnum.M) /\
    ~ (flag = CondFlagEnum.Z /\ flag = CondFlagEnum.P) /\
    ~ (flag = CondFlagEnum.M /\ flag = CondFlagEnum.P).
Proof.
  apply (ALU_exec_flag_by_sign DIV (-7) 2 (-4)).
  - simpl. tauto.
  - exists ALU.floordiv. split; reflexivity.
Defined.

(** ** The state-and-exception monad *)

Lemma preserves_bind {St A B : Type} (P : St -> Prop)
    (m : Exec St A) (k : A -> Exec St B) :
  preserves P m -> (forall a, preserves P (k a)) -> preserves P (bind m k).
Proof.
  intros Hm Hk s r s' HP. unfold bind.
  destruct (m s) as [[a|e] s1] eqn:Hms.
  - intros Hks. exact (Hk a s1 r s' (Hm _ _ _ HP Hms) Hks).
  - intros [= <- <-]. exact (Hm _ _ _ HP Hms).
Qed.

Lemma preserves_ret {St A : Type} (P : St -> Prop) (a : A) :
  preserves P (ret a).
Proof. intros s r s' HP [= <- <-]. exact HP. Qed.

Lemma preserves_lift {St A : Type} (P : St -> Prop) (r : pyresult A) :
  preserves P (lift r).
Proof. intros s r' s' HP [= <- <-]. exact HP. Qed.

(** ** One step of the machine *)

Section MachineFacts.
Context {Mem : Type} `{Memory Mem}.
Variable decode : Z -> pyresult Instruction.

Lemma advance_registers (s : CPU Mem) (address : Z) :
  wf_registers (registers s) = true ->
  wf_registers (registers (advance s address)) = true /\
  read_register (registers (advance s address)) 15 = Ok (address + 1) /\
  length (registers (advance s address)) = length (registers s) /\
  forall k, k <> 15%nat ->
    registers (advance s address) !! k = registers s !! k.
Proof. intros Hwf. exact (insert_pc _ (address + 1) Hwf). Qed.


Lemma satisfied_test (s : CPU Mem) (instr : Instruction) :
  satisfied s instr ->
  (Z.land (value (cond instr)) (value (condition s)) >? 0) = true.
Proof. unfold satisfied. intros Hs. apply Z.gtb_lt. lia. Qed.

(** The [else] branch of the condition test. *)
Lemma step_skip (s : CPU Mem) (address word : Z) (instr : Instruction) :
  wf_registers (registers s) = true ->
  fetches decode s address word instr ->
  (Z.land (value (cond instr)) (value (condition s)) >? 0) = false ->
  step decode s = (Ok tt, advance s address).
Proof.
  intros Hwf (Hpc & Hget & Hdec) Hc.
  unfold step. exec_unfold.
  rewrite Hpc, Hget, Hdec, Hc. cbv beta iota. rewrite Hpc.
  rewrite (write_register_pc _ _ Hwf). reflexivity.
Qed.

(** ADD, SUB, MUL, DIV: the write to the target happens in the state
    whose PC is already advanced. *)
Lemma step_arith (s : CPU Mem) (address word : Z) (instr : Instruction)
    (left src2 result : Z) (flag : CondFlag) :
  wf_registers (registers s) = true ->
  fetches decode s address word instr ->
  satisfied s instr ->
  read_register (registers s) (reg_src1 instr) = Ok left ->
  read_register (registers s) (reg_src2 instr) = Ok src2 ->
  In (op instr) [ADD; SUB; MUL; DIV] ->
  ALU.exec (op instr) left (src2 + offset instr) = Ok (result, flag) ->
  step decode s =
    match write_register (registers (advance s address))
                         (reg_target instr) result with
    | Ok rs => (Ok tt, mkCPU (memory s) rs flag (halted s))
    | Raise e => (Raise e, advance s address)
    end.
Proof.
  intros Hwf (Hpc & Hget & Hdec) Hc%satisfied_test Hl Hr Hop Halu.
  unfold step. exec_unfold.
  rewrite Hpc, Hget, Hdec, Hc. cbv beta iota. rewrite Hl, Hr.
  cbv beta iota. rewrite Hpc, (write_register_pc _ _ Hwf).
  cbv beta iota. rewrite Halu. fold (advance s address).
  simpl in Hop.
  destruct Hop as [<-|[<-|[<-|[<-|[]]]]]; cbv beta iota;
    destruct (write_register _ _ _); reflexivity.
Qed.

Lemma ALU_exec_arith (o : OpCode) (x y : Z) :
  In o [ADD; SUB; MUL; DIV] ->
  exists result flag, ALU.exec o x y = Ok (result, flag).
Proof.
  simpl. intros [<-|[<-|[<-|[<-|[]]]]]; unfold ALU.exec; simpl.
  - destruct (x + y =? 0); [eauto|]. destruct (x + y <? 0); eauto.
  - destruct (x - y =? 0); [eauto|]. destruct (x - y <? 0); eauto.
  - destruct (x * y =? 0); [eauto|]. destruct (x * y <? 0); eauto.
  - unfold ALU.floordiv. destruct (y =? 0); [eauto|].
    destruct (x / y =? 0); [eauto|]. destruct (x / y <? 0); eauto.
Qed.

(** STORE: the call is [put(left + right, target)], the target register
    being read once the PC is advanced. *)
Lemma step_STORE (s : CPU Mem) (address word : Z) (instr : Instruction)
    (left src2 target : Z) :
  wf_registers (registers s) = true ->
  fetches decode s address word instr ->
  satisfied s instr ->
  read_register (registers s) (reg_src1 instr) = Ok left ->
  read_register (registers s) (reg_src2 instr) = Ok src2 ->
  op instr = STORE ->
  read_register (registers (advance s address)) (reg_target instr)
    = Ok target ->
  step decode s =
    match Memory_put (memory s) (left + (src2 + offset instr)) target with
    | Ok m =>
        (Ok tt, mkCPU m (registers (advance s address))
                      (flag_of (left + (src2 + offset instr))) (halted s))
    | Raise e => (Raise e, advance s address)
    end.
Proof.
  intros Hwf (Hpc & Hget & Hdec) Hc%satisfied_test Hl Hr Hop Ht.
  assert (Halu : ALU.exec (op instr) left (src2 + offset instr)
                 = Ok (left + (src2 + offset instr),
                       flag_of (left + (src2 + offset instr)))).
  { apply ALU_exec_flag_of. rewrite Hop. eexists. split; reflexivity. }
  unfold step. exec_unfold.
  rewrite Hpc, Hget, Hdec, Hc. cbv beta iota. rewrite Hl, Hr.
  cbv beta iota. rewrite Hpc, (write_register_pc _ _ Hwf).
  cbv beta iota. rewrite Halu. fold (advance s address).
  rewrite Hop. cbv beta iota. rewrite Ht.
  cbn [memory registers condition halted advance].
  destruct (Memory_put _ _ _); reflexivity.
Qed.

(** HALT *)
Lemma step_HALT (s : CPU Mem) (address word : Z) (instr : Instruction)
    (left src2 : Z) :
  wf_registers (registers s) = true ->
  fetches decode s address word instr ->
  satisfied s instr ->
  read_register (registers s) (reg_src1 instr) = Ok left ->
  read_register (registers s) (reg_src2 instr) = Ok src2 ->
  op instr = HALT ->
  step decode s = (Ok tt, halted_at s address).
Proof.
  intros Hwf (Hpc & Hget & Hdec) Hc%satisfied_test Hl Hr Hop.
  unfold step. exec_unfold.
  rewrite Hpc, Hget, Hdec, Hc. cbv beta iota. rewrite Hl, Hr.
  cbv beta iota. rewrite Hpc, (write_register_pc _ _ Hwf).
  cbv beta iota. rewrite Hop. reflexivity.
Qed.

(** A code outside [ALU_OPS]: the [KeyError] leaves [step] after the PC
    was advanced. *)
Lemma step_unsupported (s : CPU Mem) (address word : Z)
    (instr : Instruction) (left src2 : Z) :
  wf_registers (registers s) = true ->
  fetches decode s address word instr ->
  satisfied s instr ->
  read_register (registers s) (reg_src1 instr) = Ok left ->
  read_register (registers s) (reg_src2 instr) = Ok src2 ->
  ALU.ALU_OPS (op instr) = None ->
  step decode s = (Raise KeyError, advance s address).
Proof.
  intros Hwf (Hpc & Hget & Hdec) Hc%satisfied_test Hl Hr Hop.
  unfold step. exec_unfold.
  rewrite Hpc, Hget, Hdec, Hc. cbv beta iota. rewrite Hl, Hr.
  cbv beta iota. rewrite Hpc, (write_register_pc _ _ Hwf).
  cbv beta iota. unfold ALU.exec. rewrite Hop. reflexivity.
Qed.


(** *** What every step keeps *)

Lemma registers_get_preserves (P : CPU Mem -> Prop) (i : Z) :
  preserves P (registers_get i).
Proof. intros s r s' HP [= <- <-]. exact HP. Qed.

Lemma memory_get_preserves (P : CPU Mem -> Prop) (a : Z) :
  preserves P (memory_get a).
Proof. intros s r s' HP [= <- <-]. exact HP. Qed.

Lemma get_condition_preserves (P : CPU Mem -> Prop) :
  preserves P get_condition.
Proof. intros s r s' HP [= <- <-]. exact HP. Qed.

Lemma registers_put_wf (i v : Z) : preserves (@wf_state Mem) (registers_put i v).
Proof.
  intros s r s' HP. unfold registers_put.
  destruct (write_register (registers s) i v) as [rs|e] eqn:Hw;
    intros [= <- <-]; [|exact HP].
  exact (write_register_wf _ _ _ _ HP Hw).
Qed.

Lemma registers_put_running (i v : Z) : preserves (@running Mem) (registers_put i v).
Proof.
  intros s r s' HP. unfold registers_put.
  destruct (write_register (registers s) i v); intros [= <- <-]; exact HP.
Qed.

Lemma memory_put_wf (a b : Z) : preserves (@wf_state Mem) (memory_put a b).
Proof.
  intros s r s' HP. unfold memory_put.
  destruct (Memory_put (memory s) a b); intros [= <- <-]; exact HP.
Qed.

Lemma memory_put_running (a b : Z) : preserves (@running Mem) (memory_put a b).
Proof.
  intros s r s' HP. unfold memory_put.
  destruct (Memory_put (memory s) a b); intros [= <- <-]; exact HP.
Qed.

Lemma set_condition_wf (f : CondFlag) : preserves (@wf_state Mem) (set_condition f).
Proof. intros s r s' HP [= <- <-]. exact HP. Qed.

Lemma set_condition_running (f : CondFlag) :
  preserves (@running Mem) (set_condition f).
Proof. intros s r s' HP [= <- <-]. exact HP. Qed.

Lemma set_halted_wf (b : bool) : preserves (@wf_state Mem) (set_halted b).
Proof. intros s r s' HP [= <- <-]. exact HP. Qed.

#[local] Hint Resolve preserves_bind preserves_ret preserves_lift
  registers_get_preserves memory_get_preserves get_condition_preserves
  registers_put_wf registers_put_running memory_put_wf memory_put_running
  set_condition_wf set_condition_running set_halted_wf : preserves.

Lemma step_wf : preserves (@wf_state Mem) (step decode).
Proof.
  unfold step, pc_get, pc_put.
  apply preserves_bind; [auto with preserves|intros address].
  apply preserves_bind; [auto with preserves|intros word].
  apply preserves_bind; [auto with preserves|intros instr].
  apply preserves_bind; [auto with preserves|intros current].
  destruct (_ >? 0); [|auto with preserves].
  apply preserves_bind; [auto with preserves|intros left].
  apply preserves_bind; [auto with preserves|intros src2].
  apply preserves_bind; [auto with preserves|intros prog].
  apply preserves_bind; [auto with preserves|intros _].
  apply preserves_bind; [auto with preserves|intros [result flag]].
  destruct (op instr); auto 6 with preserves.
Qed.

Lemma step_halts_inv (s s' : CPU Mem) (r : pyresult unit) :
  wf_state s -> running s ->
  step decode s = (r, s') -> halted s' = true ->
  exists address word instr,
    fetches decode s address word instr /\ satisfied s instr /\
    op instr = HALT /\ r = Ok tt /\
    s' = halted_at s address.
Proof.
  intros Hwf Hrun Hstep Hhalt.
  destruct (read_register_pc _ Hwf) as (address & _ & Hpc).
  unfold running in Hrun.
  unfold step in Hstep. exec_unfold_in Hstep.
  rewrite Hpc in Hstep.
  destruct (Memory_get (memory s) address) as [word|e] eqn:Hget;
    [|injection Hstep as <- <-; congruence].
  destruct (decode word) as [instr|e] eqn:Hdec;
    [|injection Hstep as <- <-; congruence].
  cbv beta iota in Hstep.
  destruct (_ >? 0) eqn:Hc in Hstep.
  2:{ rewrite Hpc, (write_register_pc _ _ Hwf) in Hstep.
      injection Hstep as <- <-. simpl in Hhalt. congruence. }
  destruct (read_register (registers s) (reg_src1 instr)) as [left|e] eqn:Hl;
    [|injection Hstep as <- <-; congruence].
  destruct (read_register (registers s) (reg_src2 instr)) as [src2|e] eqn:Hr;
    [|injection Hstep as <- <-; congruence].
  cbv beta iota in Hstep.
  rewrite Hpc, (write_register_pc _ _ Hwf) in Hstep.
  cbv beta iota in Hstep. fold (advance s address) in Hstep.
  destruct (ALU.exec _ _ _) as [[result flag]|e] eqn:Halu in Hstep;
    [|injection Hstep as <- <-; simpl in Hhalt; congruence].
  destruct (op instr) eqn:Hop.
  1:{ injection Hstep as <- <-. exists address, word, instr.
      repeat split; auto. unfold satisfied. apply Z.gtb_lt in Hc. lia. }
  all: exfalso; case_step Hstep; injection Hstep as <- <-;
    simpl in Hhalt; congruence.
Qed.

(** *** The loop of [run] *)

Lemma while_not_halted_done (fuel : nat) (s : CPU Mem) (n : Z) :
  halted s = true -> while_not_halted decode fuel s n = Returned s n.
Proof. intros Hh. destruct fuel; simpl; rewrite Hh; reflexivity. Qed.

Lemma while_not_halted_next (fuel : nat) (s : CPU Mem) (n : Z) :
  halted s = false ->
  while_not_halted decode (S fuel) s n =
    match step decode s with
    | (Ok _, s') => while_not_halted decode fuel s' (n + 1)
    | (Raise e, s') => Raised e s'
    end.
Proof. intros Hh. simpl. rewrite Hh. reflexivity. Qed.

Lemma while_not_halted_returned (fuel : nat) :
  forall (s s' : CPU Mem) (n n' : Z),
    wf_state s -> running s ->
    while_not_halted decode fuel s n = Returned s' n' ->
    exists prev address word instr,
      wf_state prev /\ fetches decode prev address word instr /\
      satisfied prev instr /\ op instr = HALT /\
      step decode prev = (Ok tt, s') /\ s' = halted_at prev address.
Proof.
  induction fuel as [|fuel IH]; intros s s' n n' Hwf Hrun Hloop.
  - simpl in Hloop. rewrite Hrun in Hloop. discriminate.
  - rewrite (while_not_halted_next _ _ _ Hrun) in Hloop.
    destruct (step decode s) as [[u|e] s1] eqn:Hstep; [|discriminate].
    assert (Hwf1 : wf_state s1) by exact (step_wf _ _ _ Hwf Hstep).
    destruct (halted s1) eqn:Hh1.
    + rewrite (while_not_halted_done _ _ _ Hh1) in Hloop.
      injection Hloop as <- <-.
      destruct (step_halts_inv _ _ _ Hwf Hrun Hstep Hh1)
        as (address & word & instr & Hf & Hs & Hop & _ & Hs1).
      exists s, address, word, instr. destruct u. auto 10.
    + exact (IH _ _ _ _ Hwf1 Hh1 Hloop).
Qed.

Lemma run_enters_loop (from_addr : Z) (fuel : nat) (s : CPU Mem) :
  wf_state s ->
  exists s0, wf_state s0 /\ running s0 /\
    read_register (registers s0) 15 = Ok from_addr /\
    run decode from_addr fuel s = while_not_halted decode fuel s0 0.
Proof.
  intros Hwf.
  exists (mkCPU (memory s) (<[15%nat := Reg from_addr]> (registers s))
                (condition s) false).
  destruct (read_register_pc _ Hwf) as (a & Ha & _).
  assert (Hwf0 : wf_registers (<[15%nat := Reg from_addr]> (registers s)) = true)
    by exact (wf_registers_insert _ 15%nat (Reg a) from_addr Hwf Ha).
  split; [exact Hwf0|]. split; [reflexivity|]. split.
  - destruct (read_register_pc _ Hwf0) as (a' & Ha' & Hr').
    cbn [registers]. rewrite Hr'. f_equal.
    rewrite list_lookup_insert_eq in Ha' by (eapply lookup_lt_Some; eauto).
    congruence.
  - unfold run. exec_unfold. cbn [memory registers condition halted].
    rewrite (write_register_pc _ _ Hwf). reflexivity.
Qed.

(** *** Executed and skipped instructions *)

(** C4: when the condition mask of the fetched instruction ANDed with
    the current condition flag is 0, [step] adds exactly 1 to register 15
    and leaves every other register, the memory, the condition flag and
    the halted flag as they were. *)
Theorem step_skip_frame
    (s : CPU Mem) (address word : Z) (instr : Instruction) :
  wf_state s ->
  fetches decode s address word instr ->
  Z.land (value (cond instr)) (value (condition s)) = 0 ->
  exists s',
    step decode s = (Ok tt, s') /\
    read_register (registers s') 15 = Ok (address + 1) /\
    length (registers s') = length (registers s) /\
    (forall k, k <> 15%nat -> registers s' !! k = registers s !! k) /\
    memory s' = memory s /\
    condition s' = condition s /\
    halted s' = halted s.
Proof.
  intros Hwf Hf Hc. exists (advance s address).
  destruct (advance_registers s address Hwf) as (_ & Hpc' & Hlen & Hsame).
  split; [|auto 10].
  apply (step_skip s address word instr Hwf Hf). rewrite Hc. reflexivity.
Qed.

(** C10: an ADD, SUB, MUL or DIV executed under a satisfied condition
    with target register 0 leaves register 0 reading 0 (the write is
    dropped: no register but the PC changes), and the condition flag is
    the flag of the ALU result all the same. *)
Theorem step_target_zero_sets_flag_only
    (s : CPU Mem) (address word : Z) (instr : Instruction)
    (left src2 : Z) :
  wf_state s ->
  fetches decode s address word instr ->
  satisfied s instr ->
  In (op instr) [ADD; SUB; MUL; DIV] ->
  reg_target instr = 0 ->
  read_register (registers s) (reg_src1 instr) = Ok left ->
  read_register (registers s) (reg_src2 instr) = Ok src2 ->
  exists result flag s',
    ALU.exec (op instr) left (src2 + offset instr) = Ok (result, flag) /\
    step decode s = (Ok tt, s') /\
    read_register (registers s') 0 = Ok 0 /\
    registers s' !! 0%nat = Some ZeroReg /\
    read_register (registers s') 15 = Ok (address + 1) /\
    (forall k, k <> 15%nat -> registers s' !! k = registers s !! k) /\
    condition s' = flag.
Proof.
  intros Hwf Hf Hsat Hop Ht Hl Hr.
  destruct (ALU_exec_arith (op instr) left (src2 + offset instr) Hop)
    as (result & flag & Halu).
  exists result, flag.
  rewrite (step_arith _ _ _ _ _ _ _ _ Hwf Hf Hsat Hl Hr Hop Halu), Ht.
  destruct (advance_registers s address Hwf) as (Hwf1 & Hpc1 & _ & Hsame1).
  rewrite (write_register_zero _ result Hwf1).
  eexists. split; [exact Halu|]. split; [reflexivity|].
  cbn [registers condition].
  split; [exact (read_register_zero _ Hwf1)|].
  split; [apply (wf_registers_shape _ Hwf1)|]. auto.
Qed.

(** *** HALT and unsupported codes *)

(** C6, as the code has it: a HALT executed under a satisfied condition
    sets the halted flag and adds 1 to register 15; every other register,
    the memory and the condition flag stay as they were.  The loop of
    [run] returns right after that step: one more call of [step] and no
    further one. *)
Theorem step_HALT_frame_and_return
    (s : CPU Mem) (address word : Z) (instr : Instruction)
    (left src2 : Z) :
  wf_state s ->
  fetches decode s address word instr ->
  satisfied s instr ->
  op instr = HALT ->
  read_register (registers s) (reg_src1 instr) = Ok left ->
  read_register (registers s) (reg_src2 instr) = Ok src2 ->
  exists s',
    step decode s = (Ok tt, s') /\
    halted s' = true /\
    read_register (registers s') 15 = Ok (address + 1) /\
    length (registers s') = length (registers s) /\
    (forall k, k <> 15%nat -> registers s' !! k = registers s !! k) /\
    memory s' = memory s /\
    condition s' = condition s /\
    (running s -> forall fuel n,
       while_not_halted decode (S fuel) s n = Returned s' (n + 1)).
Proof.
  intros Hwf Hf Hsat Hop Hl Hr. exists (halted_at s address).
  pose proof (step_HALT _ _ _ _ _ _ Hwf Hf Hsat Hl Hr Hop) as Hstep.
  destruct (advance_registers s address Hwf) as (_ & Hpc' & Hlen & Hsame).
  split; [exact Hstep|]. split; [reflexivity|].
  split; [exact Hpc'|]. split; [exact Hlen|]. split; [exact Hsame|].
  split; [reflexivity|]. split; [reflexivity|].
  intros Hrun fuel n.
  rewrite (while_not_halted_next _ _ _ Hrun), Hstep.
  apply while_not_halted_done. reflexivity.
Qed.


(** C8: a HALT executed under a satisfied condition adds 1 to the PC
    before it halts; and whenever [run] returns, its last step executed
    a HALT, and register 15 holds the address of that HALT plus 1. *)
Theorem HALT_leaves_pc_past_itself (s : CPU Mem) :
  wf_state s ->
  (forall address word instr left src2,
     fetches decode s address word instr ->
     satisfied s instr ->
     op instr = HALT ->
     read_register (registers s) (reg_src1 instr) = Ok left ->
     read_register (registers s) (reg_src2 instr) = Ok src2 ->
     exists s',
       step decode s = (Ok tt, s') /\ halted s' = true /\
       read_register (registers s') 15 = Ok (address + 1)) /\
  (forall from_addr fuel s' n,
     run decode from_addr fuel s = Returned s' n ->
     exists prev address word instr,
       fetches decode prev address word instr /\
       satisfied prev instr /\
       op instr = HALT /\
       step decode prev = (Ok tt, s') /\
       halted s' = true /\
       read_register (registers s') 15 = Ok (address + 1)).
Proof.
  intros Hwf. split.
  - intros address word instr left src2 Hf Hsat Hop Hl Hr.
    exists (halted_at s address).
    split; [exact (step_HALT _ _ _ _ _ _ Hwf Hf Hsat Hl Hr Hop)|].
    split; [reflexivity|]. apply (advance_registers s address Hwf).
  - intros from_addr fuel s' n Hret.
    destruct (run_enters_loop from_addr fuel s Hwf)
      as (s0 & Hwf0 & Hrun0 & _ & Heq).
    rewrite Heq in Hret.
    destruct (while_not_halted_returned _ _ _ _ _ Hwf0 Hrun0 Hret)
      as (prev & address & word & instr & Hwfp & Hf & Hsat & Hop & Hstep & ->).
    exists prev, address, word, instr.
    do 4 (split; [assumption|]). split; [reflexivity|].
    apply (advance_registers prev address Hwfp).
Qed.

(** C9: when [step] is left by the error of an unsupported operation
    code under a satisfied condition, register 15 already holds the fetch
    address plus 1: the aborted step has changed the state of the CPU. *)
Theorem unsupported_step_leaves_pc_advanced
    (s : CPU Mem) (address word : Z) (instr : Instruction)
    (left src2 : Z) :
  wf_state s ->
  fetches decode s address word instr ->
  satisfied s instr ->
  ALU.ALU_OPS (op instr) = None ->
  read_register (registers s) (reg_src1 instr) = Ok left ->
  read_register (registers s) (reg_src2 instr) = Ok src2 ->
  exists s',
    step decode s = (Raise KeyError, s') /\
    read_register (registers s) 15 = Ok address /\
    read_register (registers s') 15 = Ok (address + 1) /\
    s' <> s.
Proof.
  intros Hwf Hf Hsat Hop Hl Hr. exists (advance s address).
  destruct (advance_registers s address Hwf) as (_ & Hpc' & _).
  split; [exact (step_unsupported _ _ _ _ _ _ Hwf Hf Hsat Hl Hr Hop)|].
  destruct Hf as (Hpc & _). split; [exact Hpc|]. split; [exact Hpc'|].
  intros Heq. rewrite Heq, Hpc in Hpc'. injection Hpc' as Hpc'. lia.
Qed.

End MachineFacts.

(** ** The machine on concrete programs *)

Lemma step_skip_frame_witness :
  exists s',
    step Demo.decode Demo.skipped_add = (Ok tt, s') /\
    read_register (registers s') 15 = Ok (0 + 1) /\
    length (registers s') = length (registers Demo.skipped_add) /\
    (forall k, k <> 15%nat ->
       registers s' !! k = registers Demo.skipped_add !! k) /\
    memory s' = memory Demo.skipped_add /\
    condition s' = condition Demo.skipped_add /\
    halted s' = halted Demo.skipped_add.
Proof.
  apply (step_skip_frame Demo.decode Demo.skipped_add 0
           (Demo.encode (mkInstruction ADD CondFlagEnum.M 1 0 0 5))
           (mkInstruction ADD CondFlagEnum.M 1 0 0 5)).
  - reflexivity.
  - repeat split; reflexivity.
  - reflexivity.
Defined.

Lemma step_target_zero_sets_flag_only_witness :
  exists s',
    step Demo.decode Demo.sub_to_r0 = (Ok tt, s') /\
    read_register (registers s') 0 = Ok 0 /\
    condition s' = CondFlagEnum.M.
Proof.
  destruct (step_target_zero_sets_flag_only Demo.decode Demo.sub_to_r0
              0 (Demo.encode (Demo.always SUB 0 1 2 0))
              (Demo.always SUB 0 1 2 0) 3 5)
    as (result & flag & s' & Halu & Hstep & Hr0 & _ & _ & _ & Hflag).
  - reflexivity.
  - repeat split; reflexivity.
  - reflexivity.
  - simpl. auto.
  - reflexivity.
  - reflexivity.
  - reflexivity.
  - exists s'. split; [exact Hstep|]. split; [exact Hr0|]. rewrite Hflag.
    vm_compute in Halu. injection Halu as _ <-. reflexivity.
Defined.

Lemma step_HALT_frame_and_return_witness :
  exists s',
    step Demo.decode Demo.at_halt = (Ok tt, s') /\
    halted s' = true /\
    read_register (registers s') 15 = Ok 3 /\
    memory s' = memory Demo.at_halt /\
    condition s' = condition Demo.at_halt /\
    while_not_halted Demo.decode 5 Demo.at_halt 2 = Returned s' 3.
Proof.
  destruct (step_HALT_frame_and_return Demo.decode Demo.at_halt
              2 (Demo.encode (Demo.always HALT 0 0 0 0))
              (Demo.always HALT 0 0 0 0) 0 0)
    as (s' & Hstep & Hh & Hpc & _ & _ & Hm & Hc & Hloop).
  - reflexivity.
  - repeat split; reflexivity.
  - reflexivity.
  - reflexivity.
  - reflexivity.
  - reflexivity.
  - exists s'. do 5 (split; [assumption|]). apply (Hloop eq_refl 4%nat 2).
Defined.

(** C6 as stated fails: the HALT at address 2 is executed under a
    satisfied condition and register 15 goes from 2 to 3, so the registers
    are not all left unchanged. *)
Lemma HALT_changes_register_15 :
  fetches Demo.decode Demo.at_halt 2 (Demo.encode (Demo.always HALT 0 0 0 0))
    (Demo.always HALT 0 0 0 0) /\
  satisfied Demo.at_halt (Demo.always HALT 0 0 0 0) /\
  ~ (forall s',
       step Demo.decode Demo.at_halt = (Ok tt, s') ->
       halted s' = true /\
       registers s' = registers Demo.at_halt /\
       memory s' = memory Demo.at_halt /\
       condition s' = condition Demo.at_halt).
Proof.
  split; [repeat split; reflexivity|]. split; [reflexivity|].
  intros Hclaim.
  assert (Hstep : step Demo.decode Demo.at_halt
                  = (Ok tt, halted_at Demo.at_halt 2))
    by (vm_compute; reflexivity).
  destruct (Hclaim _ Hstep) as (_ & Hregs & _).
  vm_compute in Hregs. discriminate.
Qed.


Lemma HALT_leaves_pc_past_itself_witness :
  (exists s',
     step Demo.decode Demo.at_halt = (Ok tt, s') /\ halted s' = true /\
     read_register (registers s') 15 = Ok (2 + 1)) /\
  (exists s' prev address word instr,
     run Demo.decode 0 10 Demo.add_then_halt = Returned s' 2 /\
     read_register (registers s') 15 = Ok 2 /\
     fetches Demo.decode prev address word instr /\
     op instr = HALT /\
     step Demo.decode prev = (Ok tt, s') /\
     read_register (registers s') 15 = Ok (address + 1)).
Proof.
  split.
  - destruct (HALT_leaves_pc_past_itself Demo.decode Demo.at_halt eq_refl)
      as (Hstep & _).
    apply (Hstep 2 (Demo.encode (Demo.always HALT 0 0 0 0))
             (Demo.always HALT 0 0 0 0) 0 0);
      [repeat split; reflexivity | reflexivity..].
  - destruct (HALT_leaves_pc_past_itself Demo.decode Demo.add_then_halt eq_refl)
      as (_ & Hrun).
    pose (final := mkCPU (memory Demo.add_then_halt)
                     (Demo.regs 5 0 0 2) CondFlagEnum.P true).
    destruct (Hrun 0 10%nat final 2 eq_refl)
      as (prev & address & word & instr & Hf & _ & Hop & Hstep & _ & Hpc).
    exists final, prev, address, word, instr.
    split; [reflexivity|]. split; [reflexivity|]. auto.
Defined.

Lemma unsupported_step_leaves_pc_advanced_witness :
  exists s',
    step Demo.decode Demo.unsupported = (Raise KeyError, s') /\
    read_register (registers Demo.unsupported) 15 = Ok 0 /\
    read_register (registers s') 15 = Ok (0 + 1) /\
    s' <> Demo.unsupported.
Proof.
  apply (unsupported_step_leaves_pc_advanced Demo.decode Demo.unsupported 0
           (Demo.encode (Demo.always (OTHER 9) 1 2 3 0))
           (Demo.always (OTHER 9) 1 2 3 0) 2 3).
  - reflexivity.
  - repeat split; reflexivity.
  - reflexivity.
  - reflexivity.
  - reflexivity.
  - reflexivity.
Defined.


(** * Further properties *)

(** ** Register indices *)

Lemma list_slot_index (i : Z) :
  register_index i -> exists k, selects i k /\ (k < 16)%nat.
Proof.
  unfold register_index, selects, list_slot. intros Hi.
  destruct ((0 <=? i) && (i <? Z.of_nat 16)) eqn:E1.
  - apply andb_true_iff in E1 as [?%Z.leb_le ?%Z.ltb_lt].
    eexists. split; [reflexivity|lia].
  - destruct ((- Z.of_nat 16 <=? i) && (i <? 0)) eqn:E2.
    + apply andb_true_iff in E2 as [?%Z.leb_le ?%Z.ltb_lt].
      eexists. split; [reflexivity|lia].
    + apply andb_false_iff in E1, E2.
      destruct E1 as [?%Z.leb_gt|?%Z.ltb_ge], E2 as [?%Z.leb_gt|?%Z.ltb_ge];
        lia.
Qed.

Lemma list_slot_outside (i : Z) :
  ~ register_index i -> list_slot 16 i = None.
Proof.
  unfold register_index, list_slot. intros Hi.
  destruct ((0 <=? i) && (i <? Z.of_nat 16)) eqn:E1.
  - apply andb_true_iff in E1 as [?%Z.leb_le ?%Z.ltb_lt]. lia.
  - destruct ((- Z.of_nat 16 <=? i) && (i <? 0)) eqn:E2; [|reflexivity].
    apply andb_true_iff in E2 as [?%Z.leb_le ?%Z.ltb_lt]. lia.
Qed.

Lemma read_register_outside (rs : list Register) (i : Z) :
  wf_registers rs = true -> ~ register_index i ->
  read_register rs i = Raise IndexError.
Proof.
  intros Hwf Hi. destruct (wf_registers_shape _ Hwf) as (Hlen & _).
  unfold read_register. rewrite Hlen, (list_slot_outside _ Hi). reflexivity.
Qed.

Lemma write_register_outside (rs : list Register) (i v : Z) :
  wf_registers rs = true -> ~ register_index i ->
  write_register rs i v = Raise IndexError.
Proof.
  intros Hwf Hi. destruct (wf_registers_shape _ Hwf) as (Hlen & _).
  unfold write_register. rewrite Hlen, (list_slot_outside _ Hi). reflexivity.
Qed.

Lemma read_register_inside (rs : list Register) (i : Z) :
  wf_registers rs = true -> register_index i ->
  exists v, read_register rs i = Ok v.
Proof.
  intros Hwf Hi. destruct (wf_registers_shape _ Hwf) as (Hlen & _).
  destruct (list_slot_index _ Hi) as (k & Hk & Hlt).
  unfold read_register. rewrite Hlen. unfold selects in Hk. rewrite Hk.
  destruct (rs !! k) as [r|] eqn:Hr; [eauto|].
  apply lookup_ge_None in Hr. lia.
Qed.

(** Writing through an index and reading it back. *)
Lemma write_register_slot (rs : list Register) (i v : Z) (k : nat) :
  wf_registers rs = true -> selects i k ->
  exists rs',
    write_register rs i v = Ok rs' /\
    wf_registers rs' = true /\
    (forall j, j <> k -> rs' !! j = rs !! j) /\
    read_register rs' i = Ok (if (k =? 0)%nat then 0 else v).
Proof.
  intros Hwf Hk. destruct (wf_registers_shape _ Hwf) as (Hlen & H0 & Hplain).
  pose proof (list_slot_bound _ _ _ Hk) as Hlt.
  unfold selects in Hk.
  destruct (rs !! k) as [r|] eqn:Hr;
    [|apply lookup_ge_None in Hr; lia].
  exists (<[k := Register_put r v]> rs).
  assert (Hw : write_register rs i v = Ok (<[k := Register_put r v]> rs)).
  { unfold write_register. rewrite Hlen, Hk, Hr. reflexivity. }
  split; [exact Hw|]. split; [exact (write_register_wf _ _ _ _ Hwf Hw)|].
  split; [intros j Hj; apply list_lookup_insert_ne; congruence|].
  unfold read_register. rewrite length_insert, Hlen, Hk.
  rewrite list_lookup_insert_eq by lia.
  destruct k as [|k]; cbn [Nat.eqb].
  - rewrite H0 in Hr. injection Hr as <-. reflexivity.
  - destruct (Hplain (S k) ltac:(lia)) as [v0 Hv0].
    rewrite Hv0 in Hr. injection Hr as <-. reflexivity.
Qed.

(** ** ALU, continued *)

(** X1: [exec] raises exactly for the operation codes that are no key of
    [ALU_OPS], and then the exception is the [KeyError] of the lookup; for
    a code in the table no operands make it raise. *)
Theorem ALU_exec_raises_iff_unlisted (o : OpCode) (x y : Z) (e : exn) :
  ALU.exec o x y = Raise e <-> ALU.ALU_OPS o = None /\ e = KeyError.
Proof.
  unfold ALU.exec. split.
  - destruct o; simpl; try (intros [= <-]; auto);
      try (match goal with
           | |- context [if ?c then _ else _] =>
               destruct c; [discriminate|];
               match goal with
               | |- context [if ?d then _ else _] => destruct d; discriminate
               end
           end).
    + unfold ALU.floordiv. destruct (y =? 0); [discriminate|].
      destruct (x / y =? 0); [discriminate|].
      destruct (x / y <? 0); discriminate.
  - intros [-> ->]. reflexivity.
Qed.

(** X2: [exec] answers with the flag V exactly when the operation is DIV
    and the second operand is 0, and the result is then 0. *)
Theorem ALU_exec_V_iff_division_by_zero (o : OpCode) (x y result : Z) :
  ALU.exec o x y = Ok (result, CondFlagEnum.V)
  <-> o = DIV /\ y = 0 /\ result = 0.
Proof.
  split.
  - unfold ALU.exec.
    destruct (ALU.ALU_OPS o) as [fn|] eqn:Hfn; [|discriminate].
    destruct (fn x y) as [r|e] eqn:Hr.
    + destruct (r =? 0); [discriminate|]. destruct (r <? 0); discriminate.
    + destruct o; simpl in Hfn; try discriminate;
        injection Hfn as <-; try discriminate.
      unfold ALU.floordiv in Hr.
      destruct (y =? 0) eqn:Hy; [|discriminate].
      apply Z.eqb_eq in Hy. injection Hr as <-. intros [= <-]. auto.
  - intros (-> & -> & ->). reflexivity.
Qed.

(** X3: DIV with a divisor other than 0 rounds toward minus infinity:
    the quotient [q] it returns has [x - y * q] between 0 and the divisor,
    on the divisor's side. *)
Theorem ALU_exec_DIV_floor (x y : Z) :
  y <> 0 ->
  exists q,
    ALU.exec DIV x y = Ok (q, flag_of q) /\
    (0 < y -> 0 <= x - y * q < y) /\
    (y < 0 -> y < x - y * q <= 0).
Proof.
  intros Hy. exists (x / y). split.
  - apply ALU_exec_flag_of. exists ALU.floordiv. split; [reflexivity|].
    unfold ALU.floordiv. apply Z.eqb_neq in Hy. rewrite Hy. reflexivity.
  - pose proof (Z.div_mod x y Hy) as Hdm. split; intros Hs.
    + pose proof (Z.mod_pos_bound x y Hs). lia.
    + pose proof (Z.mod_neg_bound x y Hs). lia.
Qed.

Lemma ALU_exec_DIV_floor_witness :
  exists q,
    ALU.exec DIV (-7) 2 = Ok (q, flag_of q) /\
    (0 < 2 -> 0 <= -7 - 2 * q < 2) /\
    (2 < 0 -> 2 < -7 - 2 * q <= 0).
Proof. apply (ALU_exec_DIV_floor (-7) 2). lia. Defined.

Lemma ALU_exec_flag_domain (o : OpCode) (x y result : Z) (flag : CondFlag) :
  ALU.exec o x y = Ok (result, flag) ->
  In flag [CondFlagEnum.Z; CondFlagEnum.M; CondFlagEnum.P; CondFlagEnum.V].
Proof.
  unfold ALU.exec. destruct (ALU.ALU_OPS o) as [fn|]; [|discriminate].
  destruct (fn x y) as [r|e].
  - destruct (r =? 0); [intros [= _ <-]; simpl; auto|].
    destruct (r <? 0); intros [= _ <-]; simpl; auto.
  - destruct e; try discriminate. intros [= _ <-]. simpl. auto.
Qed.

Lemma read_register_error (rs : list Register) (i : Z) (e : exn) :
  read_register rs i = Raise e -> e = IndexError.
Proof.
  unfold read_register. destruct (list_slot _ _) as [k|]; [|congruence].
  destruct (rs !! k); congruence.
Qed.

Lemma read_register_same_slot (rs rs' : list Register) (i : Z) (k : nat) :
  wf_registers rs = true -> wf_registers rs' = true ->
  selects i k -> rs' !! k = rs !! k ->
  read_register rs' i = read_register rs i.
Proof.
  intros Hwf Hwf' Hk Hsame.
  destruct (wf_registers_shape _ Hwf) as (Hlen & _).
  destruct (wf_registers_shape _ Hwf') as (Hlen' & _).
  unfold read_register. unfold selects in Hk.
  rewrite Hlen, Hlen', Hk, Hsame. reflexivity.
Qed.

Lemma read_register_alias (rs : list Register) (i j : Z) (k : nat) :
  wf_registers rs = true -> selects i k -> selects j k ->
  read_register rs i = read_register rs j.
Proof.
  intros Hwf Hi Hj. destruct (wf_registers_shape _ Hwf) as (Hlen & _).
  unfold read_register. unfold selects in Hi, Hj.
  rewrite Hlen, Hi, Hj. reflexivity.
Qed.

(** ** One step of the machine, continued *)

Section MachineMore.
Context {Mem : Type} `{Memory Mem}.
Variable decode : Z -> pyresult Instruction.

(** LOAD: the word is read once the PC is advanced and then written to
    the target. *)
Lemma step_LOAD (s : CPU Mem) (address word : Z) (instr : Instruction)
    (left src2 : Z) :
  wf_registers (registers s) = true ->
  fetches decode s address word instr ->
  satisfied s instr ->
  read_register (registers s) (reg_src1 instr) = Ok left ->
  read_register (registers s) (reg_src2 instr) = Ok src2 ->
  op instr = LOAD ->
  step decode s =
    match Memory_get (memory s) (left + (src2 + offset instr)) with
    | Ok w =>
        match write_register (registers (advance s address))
                             (reg_target instr) w with
        | Ok rs =>
            (Ok tt, mkCPU (memory s) rs
                          (flag_of (left + (src2 + offset instr))) (halted s))
        | Raise e => (Raise e, advance s address)
        end
    | Raise e => (Raise e, advance s address)
    end.
Proof.
  intros Hwf (Hpc & Hget & Hdec) Hc%satisfied_test Hl Hr Hop.
  assert (Halu : ALU.exec (op instr) left (src2 + offset instr)
                 = Ok (left + (src2 + offset instr),
                       flag_of (left + (src2 + offset instr)))).
  { apply ALU_exec_flag_of. rewrite Hop. eexists. split; reflexivity. }
  unfold step. exec_unfold.
  rewrite Hpc, Hget, Hdec, Hc. cbv beta iota. rewrite Hl, Hr.
  cbv beta iota. rewrite Hpc, (write_register_pc _ _ Hwf).
  cbv beta iota. rewrite Halu. fold (advance s address).
  rewrite Hop. cbv beta iota.
  cbn [memory registers condition halted advance].
  destruct (Memory_get (memory s) (left + (src2 + offset instr)));
    [|reflexivity].
  destruct (write_register _ _ _); reflexivity.
Qed.

(** X4: whatever a step does and however it ends, the register file keeps
    its sixteen registers and register 0 still reads 0. *)
Theorem step_keeps_register_file (s s' : CPU Mem) (r : pyresult unit) :
  wf_state s ->
  step decode s = (r, s') ->
  wf_state s' /\
  length (registers s') = 16%nat /\
  read_register (registers s') 0 = Ok 0.
Proof.
  intros Hwf Hstep.
  assert (Hwf' : wf_state s') by exact (step_wf decode _ _ _ Hwf Hstep).
  split; [exact Hwf'|]. split.
  - apply (wf_registers_shape _ Hwf').
  - apply read_register_zero. exact Hwf'.
Qed.

(** X5: an ADD, SUB, MUL or DIV executed under a satisfied condition whose
    target is one of the registers 1 to 14 leaves the ALU result in that
    register and its flag in the condition flag, adds 1 to the PC, and
    changes no other register, nor the memory, nor the halted flag. *)
Theorem step_arith_writes_target
    (s : CPU Mem) (address word : Z) (instr : Instruction)
    (left src2 : Z) (k : nat) :
  wf_state s ->
  fetches decode s address word instr ->
  satisfied s instr ->
  In (op instr) [ADD; SUB; MUL; DIV] ->
  read_register (registers s) (reg_src1 instr) = Ok left ->
  read_register (registers s) (reg_src2 instr) = Ok src2 ->
  selects (reg_target instr) k -> k <> 0%nat -> k <> 15%nat ->
  exists result flag s',
    ALU.exec (op instr) left (src2 + offset instr) = Ok (result, flag) /\
    step decode s = (Ok tt, s') /\
    read_register (registers s') (reg_target instr) = Ok result /\
    read_register (registers s') 15 = Ok (address + 1) /\
    (forall j, j <> k -> j <> 15%nat -> registers s' !! j = registers s !! j) /\
    memory s' = memory s /\
    condition s' = flag /\
    halted s' = halted s.
Proof.
  intros Hwf Hf Hsat Hop Hl Hr Hk Hk0 Hk15.
  destruct (ALU_exec_arith (op instr) left (src2 + offset instr) Hop)
    as (result & flag & Halu).
  exists result, flag.
  rewrite (step_arith decode _ _ _ _ _ _ _ _ Hwf Hf Hsat Hl Hr Hop Halu).
  destruct (advance_registers s address Hwf) as (Hwf1 & Hpc1 & _ & Hsame1).
  destruct (write_register_slot _ (reg_target instr) result k Hwf1 Hk)
    as (rs' & Hw & Hwf' & Hsame & Hread).
  rewrite Hw. eexists. split; [exact Halu|]. split; [reflexivity|].
  cbn [registers memory condition halted].
  split.
  { rewrite Hread. destruct k; [congruence|reflexivity]. }
  split.
  { rewrite <- Hpc1.
    apply (read_register_same_slot _ _ 15 15%nat Hwf1 Hwf' eq_refl).
    apply Hsame. congruence. }
  split; [|auto].
  intros j Hj Hj15. rewrite (Hsame j Hj). exact (Hsame1 j Hj15).
Qed.

(** X6: a LOAD executed under a satisfied condition reads the memory at
    the content of [reg_src1] plus (the content of [reg_src2] plus the
    offset), leaves the word in the target register (registers 1 to 15),
    sets the condition flag from the sign of the address, and changes
    neither the memory nor any register but the target and the PC. *)
Theorem step_LOAD_reads_memory
    (s : CPU Mem) (address word : Z) (instr : Instruction)
    (left src2 w : Z) (k : nat) :
  wf_state s ->
  fetches decode s address word instr ->
  satisfied s instr ->
  op instr = LOAD ->
  read_register (registers s) (reg_src1 instr) = Ok left ->
  read_register (registers s) (reg_src2 instr) = Ok src2 ->
  Memory_get (memory s) (left + (src2 + offset instr)) = Ok w ->
  selects (reg_target instr) k -> k <> 0%nat ->
  exists s',
    step decode s = (Ok tt, s') /\
    read_register (registers s') (reg_target instr) = Ok w /\
    (k <> 15%nat -> read_register (registers s') 15 = Ok (address + 1)) /\
    (forall j, j <> k -> j <> 15%nat -> registers s' !! j = registers s !! j) /\
    memory s' = memory s /\
    condition s' = flag_of (left + (src2 + offset instr)) /\
    halted s' = halted s.
Proof.
  intros Hwf Hf Hsat Hop Hl Hr Hw Hk Hk0.
  rewrite (step_LOAD _ _ _ _ _ _ Hwf Hf Hsat Hl Hr Hop), Hw.
  destruct (advance_registers s address Hwf) as (Hwf1 & Hpc1 & _ & Hsame1).
  destruct (write_register_slot _ (reg_target instr) w k Hwf1 Hk)
    as (rs' & Hwr & Hwf' & Hsame & Hread).
  rewrite Hwr. eexists. split; [reflexivity|].
  cbn [registers memory condition halted].
  split.
  { rewrite Hread. destruct k; [congruence|reflexivity]. }
  split.
  { intros Hk15. rewrite <- Hpc1.
    apply (read_register_same_slot _ _ 15 15%nat Hwf1 Hwf' eq_refl).
    apply Hsame. congruence. }
  split; [|auto].
  intros j Hj Hj15. rewrite (Hsame j Hj). exact (Hsame1 j Hj15).
Qed.

(** X7: a DIV whose divisor (the content of [reg_src2] plus the offset) is
    0 does not stop the machine: the step ends normally, the target
    register reads 0 afterwards and the condition flag is V. *)
Theorem step_DIV_by_zero_continues
    (s : CPU Mem) (address word : Z) (instr : Instruction)
    (left src2 : Z) :
  wf_state s ->
  fetches decode s address word instr ->
  satisfied s instr ->
  op instr = DIV ->
  read_register (registers s) (reg_src1 instr) = Ok left ->
  read_register (registers s) (reg_src2 instr) = Ok src2 ->
  src2 + offset instr = 0 ->
  register_index (reg_target instr) ->
  exists s',
    step decode s = (Ok tt, s') /\
    read_register (registers s') (reg_target instr) = Ok 0 /\
    condition s' = CondFlagEnum.V /\
    memory s' = memory s /\
    halted s' = halted s.
Proof.
  intros Hwf Hf Hsat Hop Hl Hr Hz Ht.
  assert (Halu : ALU.exec (op instr) left (src2 + offset instr)
                 = Ok (0, CondFlagEnum.V)).
  { rewrite Hop, Hz. reflexivity. }
  assert (Hin : In (op instr) [ADD; SUB; MUL; DIV]) by (rewrite Hop; simpl; auto).
  rewrite (step_arith decode _ _ _ _ _ _ _ _ Hwf Hf Hsat Hl Hr Hin Halu).
  destruct (advance_registers s address Hwf) as (Hwf1 & _).
  destruct (list_slot_index _ Ht) as (k & Hk & _).
  destruct (write_register_slot _ (reg_target instr) 0 k Hwf1 Hk)
    as (rs' & Hw & _ & _ & Hread).
  rewrite Hw. eexists. split; [reflexivity|].
  cbn [registers memory condition halted].
  split; [|auto]. rewrite Hread. destruct (k =? 0)%nat; reflexivity.
Qed.

(** X8: when the fetch fails (the memory raises at the PC) or the fetched
    word does not decode, the same exception leaves [step] and nothing of
    the CPU has changed: not even the PC. *)
Theorem step_fetch_error_changes_nothing
    (s : CPU Mem) (address : Z) (e : exn) :
  read_register (registers s) 15 = Ok address ->
  Memory_get (memory s) address = Raise e \/
  (exists word, Memory_get (memory s) address = Ok word /\
                decode word = Raise e) ->
  step decode s = (Raise e, s).
Proof.
  intros Hpc Herr. unfold step. exec_unfold. rewrite Hpc.
  destruct Herr as [Hget|(word & Hget & Hdec)].
  - rewrite Hget. reflexivity.
  - rewrite Hget, Hdec. reflexivity.
Qed.

(** X9: an executed instruction whose first or second source register
    number is not an index of the register list ends the step with an
    [IndexError] before anything is written: the PC is not advanced. *)
Theorem step_source_index_error_changes_nothing
    (s : CPU Mem) (address word : Z) (instr : Instruction) :
  wf_state s ->
  fetches decode s address word instr ->
  satisfied s instr ->
  ~ register_index (reg_src1 instr) \/ ~ register_index (reg_src2 instr) ->
  step decode s = (Raise IndexError, s).
Proof.
  intros Hwf (Hpc & Hget & Hdec) Hc%satisfied_test Hbad.
  unfold step. exec_unfold.
  rewrite Hpc, Hget, Hdec, Hc. cbv beta iota.
  destruct (read_register (registers s) (reg_src1 instr)) as [left|e] eqn:Hl.
  - destruct Hbad as [Hbad|Hbad].
    + rewrite (read_register_outside _ _ Hwf Hbad) in Hl. discriminate.
    + rewrite (read_register_outside _ _ Hwf Hbad). reflexivity.
  - rewrite (read_register_error _ _ _ Hl). reflexivity.
Qed.

(** X10: an ADD, SUB, MUL or DIV whose target register number is not an
    index of the register list ends the step with an [IndexError] after
    the PC was advanced; the condition flag keeps its old value. *)
Theorem step_target_index_error_after_increment
    (s : CPU Mem) (address word : Z) (instr : Instruction)
    (left src2 : Z) :
  wf_state s ->
  fetches decode s address word instr ->
  satisfied s instr ->
  In (op instr) [ADD; SUB; MUL; DIV] ->
  read_register (registers s) (reg_src1 instr) = Ok left ->
  read_register (registers s) (reg_src2 instr) = Ok src2 ->
  ~ register_index (reg_target instr) ->
  exists s',
    step decode s = (Raise IndexError, s') /\
    read_register (registers s') 15 = Ok (address + 1) /\
    (forall j, j <> 15%nat -> registers s' !! j = registers s !! j) /\
    condition s' = condition s /\
    memory s' = memory s /\
    halted s' = halted s.
Proof.
  intros Hwf Hf Hsat Hop Hl Hr Hbad.
  destruct (ALU_exec_arith (op instr) left (src2 + offset instr) Hop)
    as (result & flag & Halu).
  rewrite (step_arith decode _ _ _ _ _ _ _ _ Hwf Hf Hsat Hl Hr Hop Halu).
  destruct (advance_registers s address Hwf) as (Hwf1 & Hpc1 & _ & Hsame1).
  rewrite (write_register_outside _ _ _ Hwf1 Hbad).
  exists (advance s address). auto 10.
Qed.

(** X11: when the memory access of an executed STORE or LOAD raises, the
    exception leaves [step] with the PC already advanced and everything
    else as it was: the condition flag is not updated, the memory and the
    other registers are untouched. *)
Theorem step_memory_error_after_increment
    (s : CPU Mem) (address word : Z) (instr : Instruction)
    (left src2 : Z) (e : exn) :
  wf_state s ->
  fetches decode s address word instr ->
  satisfied s instr ->
  read_register (registers s) (reg_src1 instr) = Ok left ->
  read_register (registers s) (reg_src2 instr) = Ok src2 ->
  (op instr = STORE /\
   exists target,
     read_register (registers (advance s address)) (reg_target instr)
       = Ok target /\
     Memory_put (memory s) (left + (src2 + offset instr)) target = Raise e) \/
  (op instr = LOAD /\
   Memory_get (memory s) (left + (src2 + offset instr)) = Raise e) ->
  exists s',
    step decode s = (Raise e, s') /\
    read_register (registers s') 15 = Ok (address + 1) /\
    (forall j, j <> 15%nat -> registers s' !! j = registers s !! j) /\
    condition s' = condition s /\
    memory s' = memory s /\
    halted s' = halted s.
Proof.
  intros Hwf Hf Hsat Hl Hr Hcase. exists (advance s address).
  destruct (advance_registers s address Hwf) as (_ & Hpc1 & _ & Hsame1).
  split; [|auto 10].
  destruct Hcase as [(Hop & target & Ht & Hput)|(Hop & Hget)].
  - rewrite (step_STORE decode _ _ _ _ _ _ _ Hwf Hf Hsat Hl Hr Hop Ht), Hput.
    reflexivity.
  - rewrite (step_LOAD _ _ _ _ _ _ Hwf Hf Hsat Hl Hr Hop), Hget.
    reflexivity.
Qed.

(** X12: a STORE whose target is register 15 stores the address of the
    next instruction (the fetch address plus 1): the target is read after
    the PC was advanced. *)
Theorem step_STORE_pc_stores_next_address
    (s : CPU Mem) (address word : Z) (instr : Instruction)
    (left src2 : Z) (m' : Mem) :
  wf_state s ->
  fetches decode s address word instr ->
  satisfied s instr ->
  op instr = STORE ->
  reg_target instr = 15 ->
  read_register (registers s) (reg_src1 instr) = Ok left ->
  read_register (registers s) (reg_src2 instr) = Ok src2 ->
  Memory_put (memory s) (left + (src2 + offset instr)) (address + 1)
    = Ok m' ->
  exists s',
    step decode s = (Ok tt, s') /\
    memory s' = m' /\
    read_register (registers s') 15 = Ok (address + 1) /\
    condition s' = flag_of (left + (src2 + offset instr)).
Proof.
  intros Hwf Hf Hsat Hop Ht Hl Hr Hput.
  destruct (advance_registers s address Hwf) as (_ & Hpc1 & _).
  assert (Htarget : read_register (registers (advance s address))
                      (reg_target instr) = Ok (address + 1))
    by (rewrite Ht; exact Hpc1).
  rewrite (step_STORE decode _ _ _ _ _ _ _ Hwf Hf Hsat Hl Hr Hop Htarget), Hput.
  eexists. split; [reflexivity|]. auto.
Qed.

(** X13: register 15 as a source operand is the address of the executing
    instruction, not the advanced PC: ADD r15, r15, r0 with an offset
    jumps to the instruction's own address plus the offset. *)
Theorem step_relative_jump
    (s : CPU Mem) (address word : Z) (instr : Instruction) :
  wf_state s ->
  fetches decode s address word instr ->
  satisfied s instr ->
  op instr = ADD ->
  reg_target instr = 15 ->
  reg_src1 instr = 15 ->
  reg_src2 instr = 0 ->
  exists s',
    step decode s = (Ok tt, s') /\
    read_register (registers s') 15 = Ok (address + offset instr) /\
    (forall j, j <> 15%nat -> registers s' !! j = registers s !! j) /\
    condition s' = flag_of (address + offset instr).
Proof.
  intros Hwf Hf Hsat Hop Ht H1 H2.
  assert (Hl : read_register (registers s) (reg_src1 instr) = Ok address)
    by (rewrite H1; apply Hf).
  assert (Hr : read_register (registers s) (reg_src2 instr) = Ok 0)
    by (rewrite H2; apply read_register_zero; exact Hwf).
  assert (Hin : In (op instr) [ADD; SUB; MUL; DIV]) by (rewrite Hop; simpl; auto).
  assert (Halu : ALU.exec (op instr) address (0 + offset instr)
                 = Ok (address + offset instr,
                       flag_of (address + offset instr))).
  { rewrite Hop, Z.add_0_l. apply ALU_exec_flag_of.
    eexists. split; reflexivity. }
  rewrite (step_arith decode _ _ _ _ _ _ _ _ Hwf Hf Hsat Hl Hr Hin Halu), Ht.
  destruct (advance_registers s address Hwf) as (Hwf1 & _ & _ & Hsame1).
  rewrite (write_register_pc _ _ Hwf1).
  destruct (insert_pc _ (address + offset instr) Hwf1)
    as (_ & Hpc2 & _ & Hsame2).
  eexists. split; [reflexivity|]. cbn [registers condition].
  split; [exact Hpc2|]. split; [|reflexivity].
  intros j Hj. rewrite (Hsame2 j Hj). exact (Hsame1 j Hj).
Qed.

(** *** The halted flag and the condition flag *)

Lemma step_stays_halted :
  preserves (fun s : CPU Mem => halted s = true) (step decode).
Proof.
  set (P := fun s : CPU Mem => halted s = true).
  assert (Hget : forall i, preserves P (registers_get i))
    by (intros; apply registers_get_preserves).
  assert (Hput : forall i v, preserves P (registers_put i v)).
  { intros i v s r s' HP. unfold registers_put.
    destruct (write_register (registers s) i v); intros [= <- <-]; exact HP. }
  assert (Hmget : forall a, preserves P (memory_get a))
    by (intros; apply memory_get_preserves).
  assert (Hmput : forall a b, preserves P (memory_put a b)).
  { intros a b s r s' HP. unfold memory_put.
    destruct (Memory_put (memory s) a b); intros [= <- <-]; exact HP. }
  assert (Hcond : forall f, preserves P (set_condition f))
    by (intros f s r s' HP [= <- <-]; exact HP).
  assert (Hhalt : preserves P (set_halted true))
    by (intros s r s' HP [= <- <-]; reflexivity).
  unfold step, pc_get, pc_put.
  apply preserves_bind; [apply Hget|intros address].
  apply preserves_bind; [apply Hmget|intros word].
  apply preserves_bind; [apply preserves_lift|intros instr].
  apply preserves_bind; [apply get_condition_preserves|intros current].
  destruct (_ >? 0).
  - apply preserves_bind; [apply Hget|intros left].
    apply preserves_bind; [apply Hget|intros src2].
    apply preserves_bind; [apply Hget|intros prog].
    apply preserves_bind; [apply Hput|intros _].
    apply preserves_bind; [apply preserves_lift|intros [result flag]].
    destruct (op instr);
      repeat first [ apply Hhalt | apply Hcond | apply preserves_ret
                   | apply preserves_bind; [first [apply Hput | apply Hget
                       | apply Hmget | apply Hmput]|intros ?] ].
  - apply preserves_bind; [apply Hget|intros prog1]. apply Hput.
Qed.

(** X14: [step] never clears the halted flag, and it sets it only by
    executing a HALT under a satisfied condition, in a step that ends
    normally. *)
Theorem step_halts_only_by_HALT (s s' : CPU Mem) (r : pyresult unit) :
  wf_state s ->
  step decode s = (r, s') ->
  (halted s = true -> halted s' = true) /\
  (halted s = false -> halted s' = true ->
   r = Ok tt /\
   exists address word instr,
     fetches decode s address word instr /\ satisfied s instr /\
     op instr = HALT).
Proof.
  intros Hwf Hstep. split.
  - intros Hh. exact (step_stays_halted _ _ _ Hh Hstep).
  - intros Hrun Hh.
    destruct (step_halts_inv decode _ _ _ Hwf Hrun Hstep Hh)
      as (address & word & instr & Hf & Hsat & Hop & Hr & _).
    split; [exact Hr|]. eauto 10.
Qed.

Lemma preserves_bind_lift {A B : Type} (P : CPU Mem -> Prop)
    (r : pyresult A) (k : A -> Exec (CPU Mem) B) :
  (forall a, r = Ok a -> preserves P (k a)) ->
  preserves P (bind (lift r) k).
Proof.
  intros Hk s r' s' HP. unfold bind, lift. destruct r as [a|e].
  - intros Hks. exact (Hk a eq_refl s r' s' HP Hks).
  - intros [= <- <-]. exact HP.
Qed.

Lemma step_condition_inv (c0 : CondFlag) :
  preserves (fun s : CPU Mem =>
               condition s = c0 \/ In (condition s) result_flags)
            (step decode).
Proof.
  set (P := fun s : CPU Mem =>
              condition s = c0 \/ In (condition s) result_flags).
  assert (Hget : forall i, preserves P (registers_get i))
    by (intros; apply registers_get_preserves).
  assert (Hput : forall i v, preserves P (registers_put i v)).
  { intros i v s r s' HP. unfold registers_put.
    destruct (write_register (registers s) i v); intros [= <- <-]; exact HP. }
  assert (Hmget : forall a, preserves P (memory_get a))
    by (intros; apply memory_get_preserves).
  assert (Hmput : forall a b, preserves P (memory_put a b)).
  { intros a b s r s' HP. unfold memory_put.
    destruct (Memory_put (memory s) a b); intros [= <- <-]; exact HP. }
  assert (Hhalt : forall b, preserves P (set_halted b))
    by (intros b s r s' HP [= <- <-]; exact HP).
  assert (Hcond : forall f, In f result_flags -> preserves P (set_condition f))
    by (intros f Hf s r s' HP [= <- <-]; right; exact Hf).
  unfold step, pc_get, pc_put.
  apply preserves_bind; [apply Hget|intros address].
  apply preserves_bind; [apply Hmget|intros word].
  apply preserves_bind; [apply preserves_lift|intros instr].
  apply preserves_bind; [apply get_condition_preserves|intros current].
  destruct (_ >? 0).
  - apply preserves_bind; [apply Hget|intros left].
    apply preserves_bind; [apply Hget|intros src2].
    apply preserves_bind; [apply Hget|intros prog].
    apply preserves_bind; [apply Hput|intros _].
    apply preserves_bind_lift. intros [result flag] Halu.
    apply ALU_exec_flag_domain in Halu. specialize (Hcond flag Halu).
    destruct (op instr);
      repeat first [ apply Hhalt | apply Hcond | apply preserves_ret
                   | apply preserves_bind; [first [apply Hput | apply Hget
                       | apply Hmget | apply Hmput]|intros ?] ].
  - apply preserves_bind; [apply Hget|intros prog1]. apply Hput.
Qed.

(** X15: a step leaves the condition flag as it was or sets it to one of
    Z, M, P and V; once the flag is one of these four, no step brings back
    ALWAYS or any other mask. *)
Theorem step_condition_flag_domain (s s' : CPU Mem) (r : pyresult unit) :
  step decode s = (r, s') ->
  (condition s' = condition s \/ In (condition s') result_flags) /\
  (In (condition s) result_flags -> In (condition s') result_flags).
Proof.
  intros Hstep.
  pose proof (step_condition_inv (condition s) s r s' (or_introl eq_refl) Hstep)
    as Hinv.
  split; [exact Hinv|]. intros Hin.
  destruct Hinv as [Heq|Hin']; [rewrite Heq; exact Hin|exact Hin'].
Qed.

(** ** The run loop, continued *)

Lemma run_entered (from_addr : Z) (fuel : nat) (s : CPU Mem) :
  wf_state s ->
  wf_state (entered s from_addr) /\
  run decode from_addr fuel s
    = while_not_halted decode fuel (entered s from_addr) 0.
Proof.
  intros Hwf. split.
  - apply (insert_pc _ from_addr Hwf).
  - unfold run. exec_unfold. cbn [memory registers condition halted].
    rewrite (write_register_pc _ _ Hwf). reflexivity.
Qed.

Lemma while_not_halted_wf (fuel : nat) :
  forall (s : CPU Mem) (n : Z),
    wf_state s ->
    wf_state (outcome_state (while_not_halted decode fuel s n)).
Proof.
  induction fuel as [|fuel IH]; intros s n Hwf; simpl.
  - destruct (halted s); exact Hwf.
  - destruct (halted s); [exact Hwf|].
    destruct (step decode s) as [[u|e] s1] eqn:Hstep.
    + apply IH. exact (step_wf decode _ _ _ Hwf Hstep).
    + exact (step_wf decode _ _ _ Hwf Hstep).
Qed.

(** X16: however a call of [run] ends (it returns, an exception leaves
    it, or it is still looping), the register file has kept its sixteen
    registers and register 0 reads 0. *)
Theorem run_keeps_register_file (from_addr : Z) (fuel : nat) (s : CPU Mem) :
  wf_state s ->
  wf_state (outcome_state (run decode from_addr fuel s)) /\
  read_register (registers (outcome_state (run decode from_addr fuel s))) 0
    = Ok 0.
Proof.
  intros Hwf. destruct (run_entered from_addr fuel s Hwf) as (Hwf0 & ->).
  pose proof (while_not_halted_wf fuel _ 0 Hwf0) as Hwf'.
  split; [exact Hwf'|]. apply read_register_zero. exact Hwf'.
Qed.


Lemma while_not_halted_count (fuel : nat) :
  forall (s s' : CPU Mem) (n0 n : Z),
    while_not_halted decode fuel s n0 = Returned s' n ->
    halted s' = true /\ n0 <= n <= n0 + Z.of_nat fuel /\
    (halted s = false -> n0 + 1 <= n).
Proof.
  induction fuel as [|fuel IH]; intros s s' n0 n Hloop; simpl in Hloop.
  - destruct (halted s) eqn:Hh; [|discriminate].
    injection Hloop as <- <-. split; [exact Hh|]. split; [lia|congruence].
  - destruct (halted s) eqn:Hh.
    + injection Hloop as <- <-. split; [exact Hh|]. split; [lia|congruence].
    + destruct (step decode s) as [[u|e] s1]; [|discriminate].
      destruct (IH _ _ _ _ Hloop) as (Hh' & Hn & _).
      split; [exact Hh'|]. split; lia.
Qed.

(** X18: when [run] returns, the machine is halted and [step] was called
    at least once (also when the machine was halted before the call) and
    at most as often as the step budget allows. *)
Theorem run_returns_halted_after_a_step
    (from_addr : Z) (fuel : nat) (s s' : CPU Mem) (n : Z) :
  run decode from_addr fuel s = Returned s' n ->
  halted s' = true /\ 1 <= n <= Z.of_nat fuel.
Proof.
  unfold run. exec_unfold. cbn [memory registers condition halted].
  destruct (write_register (registers s) 15 from_addr) as [rs|e];
    [|discriminate].
  intros Hloop. destruct (while_not_halted_count _ _ _ _ _ Hloop)
    as (Hh & Hn & Hone).
  cbn [halted] in Hone. split; [exact Hh|]. specialize (Hone eq_refl). lia.
Qed.

(** X20: [run] has no step limit of its own: if the state in which it
    enters the loop is reproduced by one step (a jump to itself), the
    loop never ends, whatever the budget. *)
Theorem run_loops_forever_on_fixed_point
    (from_addr : Z) (s : CPU Mem) :
  wf_state s ->
  step decode (entered s from_addr) = (Ok tt, entered s from_addr) ->
  forall fuel, run decode from_addr fuel s = OutOfFuel (entered s from_addr).
Proof.
  intros Hwf Hfix fuel.
  destruct (run_entered from_addr fuel s Hwf) as (_ & ->).
  generalize 0. induction fuel as [|fuel IH]; intros n.
  - reflexivity.
  - rewrite (while_not_halted_next decode fuel (entered s from_addr) n
               eq_refl), Hfix.
    apply IH.
Qed.

Lemma while_not_halted_raised (fuel : nat) :
  forall (s s' : CPU Mem) (n : Z) (e : exn),
    wf_state s ->
    while_not_halted decode fuel s n = Raised e s' ->
    exists prev,
      wf_state prev /\ halted prev = false /\
      step decode prev = (Raise e, s').
Proof.
  induction fuel as [|fuel IH]; intros s s' n e Hwf Hloop; simpl in Hloop.
  - destruct (halted s); discriminate.
  - destruct (halted s) eqn:Hh; [discriminate|].
    destruct (step decode s) as [[u|e1] s1] eqn:Hstep.
    + exact (IH _ _ _ _ (step_wf decode _ _ _ Hwf Hstep) Hloop).
    + injection Hloop as <- <-. exists s. auto.
Qed.

(** X21: an exception that leaves [run] is the exception of its last call
    of [step], made in a state that was not halted; the CPU is left in the
    state that step left, and it is not halted. *)
Theorem run_raises_what_its_last_step_raised
    (from_addr : Z) (fuel : nat) (s s' : CPU Mem) (e : exn) :
  wf_state s ->
  run decode from_addr fuel s = Raised e s' ->
  halted s' = false /\
  exists prev,
    halted prev = false /\ step decode prev = (Raise e, s').
Proof.
  intros Hwf Hrun.
  destruct (run_entered from_addr fuel s Hwf) as (Hwf0 & Heq).
  rewrite Heq in Hrun.
  destruct (while_not_halted_raised _ _ _ _ _ Hwf0 Hrun)
    as (prev & Hwfp & Hhp & Hstep).
  split; [|eauto].
  destruct (halted s') eqn:Hh; [|reflexivity].
  destruct (step_halts_inv decode _ _ _ Hwfp Hhp Hstep Hh)
    as (_ & _ & _ & _ & _ & _ & Hr & _). discriminate.
Qed.

(** *** The order of increment and ALU call *)

(** C5: in an executed (non-skipped) step the PC is incremented by 1
    before the ALU is invoked: whatever the operation, [step] is the rest
    of the step from the ALU call on, run in the state whose register 15
    holds the fetch address plus 1 and which differs from the state at
    fetch time in nothing else.  For an ADD, SUB, MUL or DIV the write to
    the target comes after the increment: with target register 15 the PC
    ends equal to the ALU result (computed from the registers as they were
    at fetch time), with any other target it ends at the fetch address
    plus 1. *)
Theorem step_increments_pc_before_ALU
    (s : CPU Mem) (address word : Z) (instr : Instruction)
    (left src2 : Z) :
  wf_state s ->
  fetches decode s address word instr ->
  satisfied s instr ->
  read_register (registers s) (reg_src1 instr) = Ok left ->
  read_register (registers s) (reg_src2 instr) = Ok src2 ->
  read_register (registers (advance s address)) 15 = Ok (address + 1) /\
  (forall j, j <> 15%nat ->
     registers (advance s address) !! j = registers s !! j) /\
  step decode s
    = from_ALU instr left (src2 + offset instr) (advance s address) /\
  (In (op instr) [ADD; SUB; MUL; DIV] ->
   forall k, selects (reg_target instr) k ->
   exists result flag s',
     ALU.exec (op instr) left (src2 + offset instr) = Ok (result, flag) /\
     step decode s = (Ok tt, s') /\
     condition s' = flag /\
     (k = 15%nat -> read_register (registers s') 15 = Ok result) /\
     (k <> 15%nat -> read_register (registers s') 15 = Ok (address + 1)) /\
     (forall j, j <> 15%nat -> j <> k ->
        registers s' !! j = registers s !! j)).
Proof.
  intros Hwf Hf Hsat Hl Hr.
  destruct (advance_registers s address Hwf) as (Hwf1 & Hpc1 & _ & Hsame1).
  split; [exact Hpc1|]. split; [exact Hsame1|]. split.
  - destruct Hf as (Hpc & Hget & Hdec).
    pose proof (satisfied_test s instr Hsat) as Hc.
    unfold step, from_ALU. exec_unfold.
    rewrite Hpc, Hget, Hdec, Hc. cbv beta iota. rewrite Hl, Hr.
    cbv beta iota. rewrite Hpc, (write_register_pc _ _ Hwf).
    reflexivity.
  - intros Hop k Hk.
    destruct (ALU_exec_arith (op instr) left (src2 + offset instr) Hop)
      as (result & flag & Halu).
    exists result, flag.
    rewrite (step_arith decode _ _ _ _ _ _ _ _ Hwf Hf Hsat Hl Hr Hop Halu).
    destruct (write_register_slot _ (reg_target instr) result k Hwf1 Hk)
      as (rs' & Hw & Hwf' & Hsame & Hread).
    rewrite Hw. eexists. split; [exact Halu|]. split; [reflexivity|].
    cbn [registers condition]. split; [reflexivity|]. split; [|split].
    + intros ->. transitivity (read_register rs' (reg_target instr));
        [|exact Hread].
      apply (read_register_alias _ 15 (reg_target instr) 15%nat Hwf');
        [reflexivity|exact Hk].
    + intros Hk15. rewrite <- Hpc1.
      apply (read_register_same_slot _ _ 15 15%nat Hwf1 Hwf' eq_refl).
      apply Hsame. congruence.
    + intros j Hj Hjk. rewrite (Hsame j Hjk). exact (Hsame1 j Hj).
Qed.

End MachineMore.

(** ** STORE on the memory of the spec *)




(** ** The constructor *)

(** X22: a CPU fresh from [__init__] is not halted, has ALWAYS as its
    condition flag, and every register index the list accepts (from -16 to
    15) reads 0; any other index raises [IndexError]. *)
Theorem CPU_init_registers_read_zero {Mem : Type} (m : Mem) (i : Z) :
  halted (CPU_init m) = false /\
  condition (CPU_init m) = CondFlagEnum.ALWAYS /\
  memory (CPU_init m) = m /\
  (register_index i -> read_register (registers (CPU_init m)) i = Ok 0) /\
  (~ register_index i ->
   read_register (registers (CPU_init m)) i = Raise IndexError).
Proof.
  do 3 (split; [reflexivity|]). split.
  - intros Hi. destruct (list_slot_index _ Hi) as (k & Hk & Hlt).
    unfold selects in Hk. unfold read_register.
    change (length (registers (CPU_init m))) with 16%nat. rewrite Hk.
    do 16 (destruct k as [|k]; [reflexivity|]). lia.
  - intros Hi. apply read_register_outside; [reflexivity|exact Hi].
Qed.

(** ** The further properties on concrete programs *)

Lemma step_increments_pc_before_ALU_witness :
  (read_register (registers (advance Demo.jump 0)) 15 = Ok (0 + 1) /\
   step Demo.decode Demo.jump
     = from_ALU (Demo.always ADD 15 2 0 3) 4 (0 + 3) (advance Demo.jump 0) /\
   exists s',
     step Demo.decode Demo.jump = (Ok tt, s') /\
     read_register (registers s') 15 = Ok 7) /\
  (exists s',
     step Demo.decode Demo.add_then_halt = (Ok tt, s') /\
     read_register (registers s') 15 = Ok (0 + 1)).
Proof.
  split.
  - destruct (step_increments_pc_before_ALU Demo.decode Demo.jump
                0 (Demo.encode (Demo.always ADD 15 2 0 3))
                (Demo.always ADD 15 2 0 3) 4 0)
      as (Hpc1 & _ & Hrest & Harith);
      [reflexivity | repeat split; reflexivity | reflexivity..|].
    split; [exact Hpc1|]. split; [exact Hrest|].
    destruct (Harith ltac:(simpl; auto) 15%nat eq_refl)
      as (result & flag & s' & Halu & Hstep & _ & Hpc & _).
    exists s'. split; [exact Hstep|]. rewrite (Hpc eq_refl).
    vm_compute in Halu. injection Halu as <- _. reflexivity.
  - destruct (step_increments_pc_before_ALU Demo.decode Demo.add_then_halt
                0 (Demo.encode (Demo.always ADD 1 0 0 5))
                (Demo.always ADD 1 0 0 5) 0 0)
      as (_ & _ & _ & Harith);
      [reflexivity | repeat split; reflexivity | reflexivity..|].
    destruct (Harith ltac:(simpl; auto) 1%nat eq_refl)
      as (result & flag & s' & _ & Hstep & _ & _ & Hpc & _).
    exists s'. split; [exact Hstep|]. apply Hpc. discriminate.
Defined.

Lemma step_keeps_register_file_witness :
  wf_state (snd (step Demo.decode Demo.store_r1)) /\
  length (registers (snd (step Demo.decode Demo.store_r1))) = 16%nat /\
  read_register (registers (snd (step Demo.decode Demo.store_r1))) 0 = Ok 0.
Proof.
  apply (step_keeps_register_file Demo.decode Demo.store_r1 _
           (fst (step Demo.decode Demo.store_r1))).
  - reflexivity.
  - apply surjective_pairing.
Defined.

Lemma step_arith_writes_target_witness :
  exists s',
    step Demo.decode Demo.add_then_halt = (Ok tt, s') /\
    read_register (registers s') 1 = Ok 5 /\
    read_register (registers s') 15 = Ok 1 /\
    condition s' = CondFlagEnum.P.
Proof.
  destruct (step_arith_writes_target Demo.decode Demo.add_then_halt
              0 (Demo.encode (Demo.always ADD 1 0 0 5))
              (Demo.always ADD 1 0 0 5) 0 0 1%nat)
    as (result & flag & s' & Halu & Hstep & Ht & Hpc & _ & _ & Hc & _).
  - reflexivity.
  - repeat split; reflexivity.
  - reflexivity.
  - simpl. auto.
  - reflexivity.
  - reflexivity.
  - reflexivity.
  - discriminate.
  - discriminate.
  - vm_compute in Halu. injection Halu as <- <-.
    exists s'. auto.
Defined.

Lemma step_LOAD_reads_memory_witness :
  exists s',
    step Demo.decode Cases.load_r2 = (Ok tt, s') /\
    read_register (registers s') 2 = Ok 99 /\
    read_register (registers s') 15 = Ok 1 /\
    memory s' = memory Cases.load_r2 /\
    condition s' = CondFlagEnum.P.
Proof.
  destruct (step_LOAD_reads_memory Demo.decode Cases.load_r2
              0 (Demo.encode (Demo.always LOAD 2 0 0 3))
              (Demo.always LOAD 2 0 0 3) 0 0 99 2%nat)
    as (s' & Hstep & Ht & Hpc & _ & Hm & Hc & _).
  - reflexivity.
  - repeat split; reflexivity.
  - reflexivity.
  - reflexivity.
  - reflexivity.
  - reflexivity.
  - reflexivity.
  - reflexivity.
  - discriminate.
  - exists s'. split; [exact Hstep|]. split; [exact Ht|].
    split; [apply Hpc; discriminate|]. split; [exact Hm|exact Hc].
Defined.

Lemma step_DIV_by_zero_continues_witness :
  exists s',
    step Demo.decode Cases.div_zero = (Ok tt, s') /\
    read_register (registers Cases.div_zero) 1 = Ok 5 /\
    read_register (registers s') 1 = Ok 0 /\
    condition s' = CondFlagEnum.V.
Proof.
  destruct (step_DIV_by_zero_continues Demo.decode Cases.div_zero
              0 (Demo.encode (Demo.always DIV 1 2 0 0))
              (Demo.always DIV 1 2 0 0) 7 0)
    as (s' & Hstep & Ht & Hc & _).
  - reflexivity.
  - repeat split; reflexivity.
  - reflexivity.
  - reflexivity.
  - reflexivity.
  - reflexivity.
  - reflexivity.
  - unfold register_index. simpl. lia.
  - exists s'. split; [exact Hstep|]. split; [reflexivity|]. auto.
Defined.

Lemma step_fetch_error_changes_nothing_witness :
  step Demo.decode Cases.pc_outside = (Raise AddressError, Cases.pc_outside).
Proof.
  apply (step_fetch_error_changes_nothing Demo.decode Cases.pc_outside 50).
  - reflexivity.
  - left. reflexivity.
Defined.

Lemma step_source_index_error_changes_nothing_witness :
  step (Cases.fixed_decode Cases.bad_source) Demo.add_then_halt
  = (Raise IndexError, Demo.add_then_halt).
Proof.
  apply (step_source_index_error_changes_nothing
           (Cases.fixed_decode Cases.bad_source) Demo.add_then_halt
           0 (Demo.encode (Demo.always ADD 1 0 0 5)) Cases.bad_source).
  - reflexivity.
  - repeat split; reflexivity.
  - reflexivity.
  - left. unfold register_index. simpl. lia.
Defined.

Lemma step_target_index_error_after_increment_witness :
  exists s',
    step (Cases.fixed_decode Cases.bad_target) Demo.add_then_halt
    = (Raise IndexError, s') /\
    read_register (registers s') 15 = Ok (0 + 1) /\
    condition s' = condition Demo.add_then_halt.
Proof.
  destruct (step_target_index_error_after_increment
              (Cases.fixed_decode Cases.bad_target) Demo.add_then_halt
              0 (Demo.encode (Demo.always ADD 1 0 0 5)) Cases.bad_target 0 0)
    as (s' & Hstep & Hpc & _ & Hc & _).
  - reflexivity.
  - repeat split; reflexivity.
  - reflexivity.
  - simpl. auto.
  - reflexivity.
  - reflexivity.
  - unfold register_index. simpl. lia.
  - exists s'. auto.
Defined.

Lemma step_memory_error_after_increment_witness :
  (exists s',
     step Demo.decode Cases.store_outside = (Raise AddressError, s') /\
     read_register (registers s') 15 = Ok (0 + 1) /\
     condition s' = condition Cases.store_outside /\
     memory s' = memory Cases.store_outside) /\
  (exists s',
     step Demo.decode Cases.load_outside = (Raise AddressError, s') /\
     read_register (registers s') 15 = Ok (1 + 1) /\
     condition s' = condition Cases.load_outside).
Proof.
  split.
  - destruct (step_memory_error_after_increment Demo.decode Cases.store_outside
                0 (Demo.encode (Demo.always STORE 1 0 0 100))
                (Demo.always STORE 1 0 0 100) 0 0 AddressError)
      as (s' & Hstep & Hpc & _ & Hc & Hm & _).
    + reflexivity.
    + repeat split; reflexivity.
    + reflexivity.
    + reflexivity.
    + reflexivity.
    + left. split; [reflexivity|]. exists 8. split; reflexivity.
    + exists s'. auto.
  - destruct (step_memory_error_after_increment Demo.decode Cases.load_outside
                1 (Demo.encode (Demo.always LOAD 1 0 0 100))
                (Demo.always LOAD 1 0 0 100) 0 0 AddressError)
      as (s' & Hstep & Hpc & _ & Hc & _).
    + reflexivity.
    + repeat split; reflexivity.
    + reflexivity.
    + reflexivity.
    + reflexivity.
    + right. split; reflexivity.
    + exists s'. auto.
Defined.

Lemma step_STORE_pc_stores_next_address_witness :
  exists s',
    step Demo.decode Cases.store_pc = (Ok tt, s') /\
    Memory_get (memory s') 2 = Ok 2 /\
    read_register (registers s') 15 = Ok (1 + 1).
Proof.
  destruct (step_STORE_pc_stores_next_address Demo.decode Cases.store_pc
              1 (Demo.encode (Demo.always STORE 15 0 0 2))
              (Demo.always STORE 15 0 0 2) 0 0
              (Demo.mkWordArray
                 (<[2%nat := 2]> (Demo.words (memory Cases.store_pc)))))
    as (s' & Hstep & Hm & Hpc & _).
  - reflexivity.
  - repeat split; reflexivity.
  - reflexivity.
  - reflexivity.
  - reflexivity.
  - reflexivity.
  - reflexivity.
  - reflexivity.
  - exists s'. split; [exact Hstep|]. split; [|exact Hpc].
    rewrite Hm. reflexivity.
Defined.

Lemma step_relative_jump_witness :
  exists s',
    step Demo.decode Cases.relative_jump = (Ok tt, s') /\
    read_register (registers s') 15 = Ok (1 + 3).
Proof.
  destruct (step_relative_jump Demo.decode Cases.relative_jump
              1 (Demo.encode (Demo.always ADD 15 15 0 3))
              (Demo.always ADD 15 15 0 3))
    as (s' & Hstep & Hpc & _).
  - reflexivity.
  - repeat split; reflexivity.
  - reflexivity.
  - reflexivity.
  - reflexivity.
  - reflexivity.
  - reflexivity.
  - exists s'. auto.
Defined.

Lemma step_halts_only_by_HALT_witness :
  exists address word instr,
    fetches Demo.decode Demo.at_halt address word instr /\
    satisfied Demo.at_halt instr /\ op instr = HALT.
Proof.
  destruct (step_halts_only_by_HALT Demo.decode Demo.at_halt
              (halted_at Demo.at_halt 2) (Ok tt))
    as (_ & Hhalts).
  - reflexivity.
  - reflexivity.
  - apply (Hhalts eq_refl eq_refl).
Defined.

Lemma step_condition_flag_domain_witness :
  condition (snd (step Demo.decode Demo.sub_to_r0))
    = condition Demo.sub_to_r0 \/
  In (condition (snd (step Demo.decode Demo.sub_to_r0))) result_flags.
Proof.
  apply (step_condition_flag_domain Demo.decode Demo.sub_to_r0 _
           (fst (step Demo.decode Demo.sub_to_r0))).
  apply surjective_pairing.
Defined.

Lemma run_keeps_register_file_witness :
  read_register
    (registers (outcome_state (run Demo.decode 0 10 Demo.add_then_halt))) 0
  = Ok 0.
Proof.
  apply (run_keeps_register_file Demo.decode 0 10 Demo.add_then_halt).
  reflexivity.
Defined.


Lemma run_returns_halted_after_a_step_witness :
  halted (outcome_state (run Demo.decode 0 10 Demo.add_then_halt)) = true /\
  1 <= 2 <= Z.of_nat 10.
Proof.
  apply (run_returns_halted_after_a_step Demo.decode 0 10 Demo.add_then_halt).
  reflexivity.
Defined.

Lemma run_loops_forever_on_fixed_point_witness :
  run Demo.decode 0 1000 Cases.self_jump
  = OutOfFuel (entered Cases.self_jump 0).
Proof.
  refine (run_loops_forever_on_fixed_point Demo.decode 0 Cases.self_jump
            _ _ 1000%nat).
  - reflexivity.
  - reflexivity.
Defined.

Lemma run_raises_what_its_last_step_raised_witness :
  halted (outcome_state (run Demo.decode 0 5 Demo.unsupported)) = false /\
  exists prev,
    halted prev = false /\
    step Demo.decode prev
    = (Raise KeyError, outcome_state (run Demo.decode 0 5 Demo.unsupported)).
Proof.
  apply (run_raises_what_its_last_step_raised Demo.decode 0 5 Demo.unsupported).
  - reflexivity.
  - reflexivity.
Defined.
